(** * THEOPHYSICS ARCHITECT: a shallow embedding of [main.ts]

    The plugin reads the host's cached metadata (frontmatter, links,
    tags), classifies notes into three tiers, renders a Mermaid graph
    of one note and a Markdown dashboard of the whole vault, and writes
    the dashboard through the host's vault API.

    Conventions of the embedding:
    - a JS string is a [string]; [toLowerCase] maps the letters A-Z and
      keeps every other character. That is exact wherever the code
      compares the result: the six words it compares with are ASCII,
      and outside A-Z the only characters whose lower-casing has an
      ASCII letter in it are the Kelvin sign (a k, which none of the
      words has) and the dotted capital I (an i followed by a combining
      dot, which none of the words has either);
    - a JS object read as a map (frontmatter, persisted settings) is a
      [gmap string jsval]; an absent property is a failed lookup;
    - the counters are [nat] (a vault holds far fewer than 2^53 files);
      they become IEEE binary64 numbers ([spec_float], precision 53)
      where the code divides them;
    - code that can raise returns a [result]; the vault, the notices,
      the opened files and the reading of the clock are passed
      explicitly. *)

From Stdlib Require Import ZArith String Ascii List SpecFloat Lia.
From stdpp Require Import gmap strings list fin_maps pretty.

#[local] Set Warnings "-register-all,-clear-no-such-hyp".
#[local] Open Scope string_scope.

(** ** JavaScript values *)

Inductive jsval :=
  | JUndefined
  | JNull
  | JBool (b : bool)
  | JNum (x : spec_float)
  | JStr (s : string)
  | JArr (l : list jsval)
  | JObj (o : gmap string jsval).

Inductive exn :=
  | TypeError
  | HostError (msg : string).

Inductive result (A : Type) :=
  | Ok (a : A)
  | Throw (e : exn).
Arguments Ok {A} a.
Arguments Throw {A} e.

#[global] Instance result_bind : MBind result := λ A B k r,
  match r with
  | Ok a => k a
  | Throw e => Throw e
  end.

(** ToBoolean. *)
Definition truthy (v : jsval) : bool :=
  match v with
  | JUndefined | JNull => false
  | JBool b => b
  | JNum S754_nan | JNum (S754_zero _) => false
  | JNum _ => true
  | JStr s => negb (s =? "")
  | JArr _ | JObj _ => true
  end.

(** [a || b] *)
Definition js_or (a b : jsval) : jsval := if truthy a then a else b.

(** [o.k]: an absent property reads as [undefined]. *)
Definition prop (o : gmap string jsval) (k : string) : jsval :=
  default JUndefined (o !! k).

(** [v === true] *)
Definition is_true (v : jsval) : bool :=
  match v with
  | JBool true => true
  | _ => false
  end.

(** ** Strings *)

Definition dq : string := String (ascii_of_nat 34) EmptyString.
Definition nl : string := String (ascii_of_nat 10) EmptyString.

Definition is_upper (c : ascii) : bool :=
  let n := nat_of_ascii c in (65 <=? n)%nat && (n <=? 90)%nat.
Definition is_lower (c : ascii) : bool :=
  let n := nat_of_ascii c in (97 <=? n)%nat && (n <=? 122)%nat.
Definition is_digit (c : ascii) : bool :=
  let n := nat_of_ascii c in (48 <=? n)%nat && (n <=? 57)%nat.

Definition lower_char (c : ascii) : ascii :=
  if is_upper c then ascii_of_nat (nat_of_ascii c + 32) else c.

(** [s.toLowerCase()] on the letters A-Z. The text it gives for a
    string with other cased characters (an accented capital in a tier
    label, printed as the class of the centre) is outside the model. *)
Fixpoint toLowerCase (s : string) : string :=
  match s with
  | EmptyString => EmptyString
  | String c s' => String (lower_char c) (toLowerCase s')
  end.

(** [v.toLowerCase()] on an arbitrary value: only strings have the
    method. *)
Definition call_toLowerCase (v : jsval) : result string :=
  match v with
  | JStr s => Ok (toLowerCase s)
  | _ => Throw TypeError
  end.

(** [s.replace(/[^a-zA-Z0-9]/g, '')] *)
Fixpoint sanitize (s : string) : string :=
  match s with
  | EmptyString => EmptyString
  | String c s' =>
      if is_lower c || is_upper c || is_digit c
      then String c (sanitize s')
      else sanitize s'
  end.

(** [l.join(sep)] *)
Fixpoint join (sep : string) (l : list string) : string :=
  match l with
  | [] => ""
  | [x] => x
  | x :: l' => x ++ sep ++ join sep l'
  end.

(** ** Configuration *)

Record Schema := {
  level1 : string;
  level2 : string;
  level3 : string
}.

Record ArchitectSettings := {
  analysisFolder : string;
  schema : Schema
}.

Definition DEFAULT_SETTINGS : ArchitectSettings := {|
  analysisFolder := "Data Analytics";
  schema := {| level1 := "Signal"; level2 := "Pattern"; level3 := "Constant" |}
|}.

(** ** Host metadata *)

Module LinkCache.
Record t := {
  link : string;
  displayText : option string
}.
End LinkCache.

(** A tag in the body of a note as the host caches it: an object
    [{tag, position}], not the tag's text. *)
Module TagCache.
Record loc := {
  line : nat;
  col : nat;
  offset : nat
}.
Record pos := {
  pos_start : loc;
  pos_end : loc
}.
Record t := {
  tag : string;
  position : pos
}.
End TagCache.

Record CachedMetadata := {
  links : option (list LinkCache.t);
  frontmatter : option (gmap string jsval);
  tags : option (list TagCache.t)
}.

(** A markdown file together with what [getFileCache] answers for it. *)
Record Doc := {
  basename : string;
  cache : option CachedMetadata
}.

(** [cache?.frontmatter] *)
Definition cache_frontmatter (c : option CachedMetadata) : option (gmap string jsval) :=
  c ≫= frontmatter.


(** ** Local logic: one file *)

Record Node := {
  name : string;
  displayText : string
}.

Record ConnectionMap := {
  myType : string;
  nodes : list Node
}.

(** Lines 66-75 of [scanConnections]: the tier of the current file. *)
Definition scanConnections_myType
    (settings : ArchitectSettings) (fm : option (gmap string jsval)) : result string :=
  let myType := level1 (schema settings) in
  match fm with
  | Some fm =>
      if truthy (prop fm "type") then
        match prop fm "type" with
        | JStr type =>
            let t := toLowerCase type in
            if (t =? "law") || (t =? "constant") then Ok (level3 (schema settings))
            else if (t =? "molecule") || (t =? "pattern") then Ok (level2 (schema settings))
            else if (t =? "atom") || (t =? "signal") then Ok (level1 (schema settings))
            else Ok type
        | _ => Throw TypeError
        end
      else Ok myType
  | None => Ok myType
  end.



(** [arr.forEach((x, index) => ...)] threading the variable the callback
    assigns to. *)
Fixpoint forEach_from {A St : Type} (f : St → A → nat → St) (index : nat) (l : list A) (acc : St) : St :=
  match l with
  | [] => acc
  | x :: l' => forEach_from f (S index) l' (f acc x index)
  end.

Definition forEach {A St : Type} (f : St → A → nat → St) (l : list A) (acc : St) : St :=
  forEach_from f 0 l acc.

Definition generateMermaid (data : ConnectionMap) (centralName : string) : string :=
  let graph := "graph TD" ++ nl in
  let graph := graph ++ "    classDef signal fill:#e1f5fe,stroke:#01579b,stroke-width:2px;" ++ nl in
  let graph := graph ++ "    classDef pattern fill:#e8f5e9,stroke:#1b5e20,stroke-width:4px;" ++ nl in
  let graph := graph ++ "    classDef constant fill:#fff8e1,stroke:#ff6f00,stroke-width:6px;" ++ nl in
  let centerClass := toLowerCase (myType data) in
  let safeCenter := sanitize centralName in
  let graph := graph ++ "    Center[" ++ dq ++ centralName ++ dq ++ "]:::" ++ centerClass ++ nl in
  forEach
    (λ graph node index,
       let safeNode := sanitize (name node) in
       graph ++ "    Center --> Node" ++ pretty index ++ "[" ++ dq ++ displayText node ++ dq ++ "]" ++ nl)
    (nodes data) graph.

(** ** Global logic: the dashboard *)

Record Counts := {
  signals : nat;
  patterns : nat;
  constants : nat;
  breakthroughs : nat
}.

Record Aggregate := {
  counts : Counts;
  constantList : list string;
  patternList : list string
}.

Definition inc_signals (a : Aggregate) : Aggregate :=
  {| counts := {| signals := S (signals (counts a)); patterns := patterns (counts a);
                  constants := constants (counts a); breakthroughs := breakthroughs (counts a) |};
     constantList := constantList a; patternList := patternList a |}.

Definition inc_patterns (entry : string) (a : Aggregate) : Aggregate :=
  {| counts := {| signals := signals (counts a); patterns := S (patterns (counts a));
                  constants := constants (counts a); breakthroughs := breakthroughs (counts a) |};
     constantList := constantList a; patternList := patternList a ++ [entry] |}.

Definition inc_constants (entry : string) (a : Aggregate) : Aggregate :=
  {| counts := {| signals := signals (counts a); patterns := patterns (counts a);
                  constants := S (constants (counts a)); breakthroughs := breakthroughs (counts a) |};
     constantList := constantList a ++ [entry]; patternList := patternList a |}.

Definition inc_breakthroughs (a : Aggregate) : Aggregate :=
  {| counts := {| signals := signals (counts a); patterns := patterns (counts a);
                  constants := constants (counts a); breakthroughs := S (breakthroughs (counts a)) |};
     constantList := constantList a; patternList := patternList a |}.

Definition when {St : Type} (b : bool) (f : St → St) (s : St) : St := if b then f s else s.

(** The comparison [includes] makes (SameValueZero) between an element
    of [cache.tags] and a string: a tag object is no string, whatever
    its [tag] field says. *)
Definition tag_object_is (el : TagCache.t) (x : string) : bool := false.

(** [cache.tags?.includes(tag)] *)
Definition tags_include (ts : option (list TagCache.t)) (tag : string) : bool :=
  match ts with
  | Some ts => existsb (λ el, tag_object_is el tag) ts
  | None => false
  end.

(** [cache.tags?.includes('#breakthrough') || fm.breakthrough === true] *)
Definition is_breakthrough (c : option CachedMetadata) (fm : gmap string jsval) : bool :=
  tags_include (c ≫= tags) "#breakthrough" || is_true (prop fm "breakthrough").

Definition wikilink (file : Doc) : string := "- [[" ++ basename file ++ "]]".

(** One iteration of the loop over the markdown files. *)
Definition crunch_file (a : Aggregate) (file : Doc) : result Aggregate :=
  match cache_frontmatter (cache file) with
  | None => Ok a
  | Some fm =>
      type ← call_toLowerCase (js_or (prop fm "type") (JStr ""));
      let a := when ((type =? "atom") || (type =? "signal")) inc_signals a in
      let a := when ((type =? "molecule") || (type =? "pattern")) (inc_patterns (wikilink file)) a in
      let a := when ((type =? "law") || (type =? "constant")) (inc_constants (wikilink file)) a in
      let a := when (is_breakthrough (cache file) fm) inc_breakthroughs a in
      Ok a
  end.

Fixpoint crunch_from (a : Aggregate) (files : list Doc) : result Aggregate :=
  match files with
  | [] => Ok a
  | file :: files' => a' ← crunch_file a file; crunch_from a' files'
  end.

Definition no_counts : Aggregate :=
  {| counts := {| signals := 0; patterns := 0; constants := 0; breakthroughs := 0 |};
     constantList := []; patternList := [] |}.

Definition crunch (files : list Doc) : result Aggregate := crunch_from no_counts files.

(** *** Numbers *)

Definition prec : Z := 53.
Definition emax : Z := 1024.

(** A counter as the IEEE binary64 number it is at run time (exact
    below 2^53). *)
Definition Number (n : nat) : spec_float :=
  binary_normalize prec emax (Z.of_nat n) 0 false.

(** [n || d] on a counter *)
Definition nat_or (n d : nat) : nat := if (n =? 0)%nat then d else n.

(** [a || b] on strings *)
Definition str_or (a b : string) : string := if a =? "" then b else a.

(** [x.toFixed(1)] for a number below 10^21: the integer [n] with
    [n / 10] nearest to [x], the larger one on a tie, printed with one
    decimal. *)
Definition toFixed1 (x : spec_float) : string :=
  match x with
  | S754_nan => "NaN"
  | S754_infinity s => if s then "-Infinity" else "Infinity"
  | S754_zero _ => "0.0"
  | S754_finite s m e =>
      let n := match e with
               | Zneg p => (20 * Zpos m + 2 ^ Zpos p) / 2 ^ (Zpos p + 1)
               | _ => 10 * Zpos m * 2 ^ e
               end%Z in
      (if s then "-" else "") ++ pretty (n / 10)%Z ++ "." ++ pretty (n mod 10)%Z
  end.

(** *** The report *)

Fixpoint unlines (l : list string) : string :=
  match l with
  | [] => ""
  | x :: l' => x ++ nl ++ unlines l'
  end.

Definition dashboardHead (now : string) (a : Aggregate) : string :=
  unlines [
    "---";
    "cssclass: dashboard";
    "tags: [dashboard, analytics]";
    "updated: " ++ now;
    "---";
    EmptyString;
    "<div class=" ++ dq ++ "architect-dashboard-header" ++ dq ++ ">";
    "  <h1>🏛️ THEOPHYSICS ARCHITECT</h1>";
    "  <p>Global Structure Analysis</p>";
    "</div>";
    EmptyString;
    "<div class=" ++ dq ++ "architect-stat-container" ++ dq ++ ">";
    "  <div class=" ++ dq ++ "architect-stat-box" ++ dq ++ ">";
    "    <div class=" ++ dq ++ "architect-stat-number" ++ dq ++ ">" ++ pretty (signals (counts a)) ++ "</div>";
    "    <div class=" ++ dq ++ "architect-stat-label" ++ dq ++ ">Signals</div>";
    "  </div>";
    "  <div class=" ++ dq ++ "architect-stat-box" ++ dq ++ ">";
    "    <div class=" ++ dq ++ "architect-stat-number" ++ dq ++ ">" ++ pretty (patterns (counts a)) ++ "</div>";
    "    <div class=" ++ dq ++ "architect-stat-label" ++ dq ++ ">Patterns</div>";
    "  </div>";
    "  <div class=" ++ dq ++ "architect-stat-box" ++ dq ++ ">";
    "    <div class=" ++ dq ++ "architect-stat-number" ++ dq ++ ">" ++ pretty (constants (counts a)) ++ "</div>";
    "    <div class=" ++ dq ++ "architect-stat-label" ++ dq ++ ">Constants</div>";
    "  </div>";
    "</div>";
    EmptyString;
    "## 🚀 Breakthrough Velocity";
    "**Total Breakthroughs:** " ++ pretty (breakthroughs (counts a));
    EmptyString;
    "---";
    EmptyString;
    "## 🌌 The Constants (Laws)";
    "> *These are the bedrock truths.*";
    str_or (join nl (constantList a)) "_No Constants defined yet._";
    EmptyString;
    "---";
    EmptyString;
    "## 🧬 The Patterns (Molecules)";
    "> *Where Physics and Theology represent the same shape.*";
    str_or (join nl (patternList a)) "_No Patterns defined yet._";
    EmptyString;
    "---";
    EmptyString;
    "## 🧠 Analytics Insights"
  ].

Definition highSignalNoise (ratio : spec_float) : string :=
  "> [!WARNING] High Signal Noise" ++ nl
  ++ "> You have " ++ toFixed1 ratio ++ " signals for every pattern. **Action:** Start synthesizing "
  ++ dq ++ "Circling" ++ dq ++ " ideas into " ++ dq ++ "Reframed" ++ dq ++ " Patterns." ++ nl.

Definition readyForBreakthrough : string :=
  "> [!TIP] Ready for Breakthrough" ++ nl
  ++ "> You have strong Patterns but no Constants. **Action:** Review your top Patterns to see which one is a Universal Law." ++ nl.

Definition healthyArchitecture : string :=
  "> [!SUCCESS] Healthy Architecture" ++ nl
  ++ "> Good balance between raw signals and crystallized truth." ++ nl.

(** [counts.signals / (counts.patterns || 1)] *)
Definition ratio (c : Counts) : spec_float :=
  SFdiv prec emax (Number (signals c)) (Number (nat_or (patterns c) 1)).

(** Lines 200-208: what is appended to the report. *)
Definition insights (c : Counts) : string :=
  let ratio := ratio c in
  if SFltb (Number 10) ratio then highSignalNoise ratio
  else if (constants c =? 0)%nat && (5 <? patterns c)%nat then readyForBreakthrough
  else healthyArchitecture.

(** The text built from line 154 to line 208, given what
    [new Date().toLocaleString()] answered. *)
Definition dashboardContent (now : string) (a : Aggregate) : string :=
  let md := dashboardHead now a in
  md ++ insights (counts a).

(** ** The vault *)

Inductive TAbstractFile :=
  | TFile (data : string)
  | TFolder.

Record World := {
  vault : gmap string TAbstractFile;
  notices : list string;
  opened : list string
}.

Definition set_vault (v : gmap string TAbstractFile) (w : World) : World :=
  {| vault := v; notices := notices w; opened := opened w |}.

(** [new Notice(msg)] *)
Definition Notice (msg : string) (w : World) : World :=
  {| vault := vault w; notices := notices w ++ [msg]; opened := opened w |}.

(** [leaf.openFile(file)] on a fresh leaf *)
Definition openFile (path : string) (w : World) : World :=
  {| vault := vault w; notices := notices w; opened := opened w ++ [path] |}.

Definition getAbstractFileByPath (v : gmap string TAbstractFile) (path : string) : option TAbstractFile :=
  v !! path.

(** Modelled from the spec: the host storage provider's folder creation;
    the host refuses a path that is taken. *)
Definition createFolder (v : gmap string TAbstractFile) (path : string) : result (gmap string TAbstractFile) :=
  match v !! path with
  | None => Ok (<[path := TFolder]> v)
  | Some _ => Throw (HostError "Folder already exists.")
  end.

(** Modelled from the spec: the host storage provider's file creation;
    the host refuses a path that is taken. *)
Definition create (v : gmap string TAbstractFile) (path data : string) : result (gmap string TAbstractFile) :=
  match v !! path with
  | None => Ok (<[path := TFile data]> v)
  | Some _ => Throw (HostError "File already exists.")
  end.

(** Modelled from the spec: the host storage provider's content
    replacement of the file at [path]. *)
Definition modify (v : gmap string TAbstractFile) (path data : string) : result (gmap string TAbstractFile) :=
  match v !! path with
  | Some (TFile _) => Ok (<[path := TFile data]> v)
  | _ => Throw (HostError "File not found.")
  end.



Section Plugin.

(** The host's path normalisation is left open. *)
Variable normalizePath : string → string.

Definition folderPath_of (settings : ArchitectSettings) : string :=
  normalizePath (analysisFolder settings).

Definition filePath_of (settings : ArchitectSettings) (filename : string) : string :=
  normalizePath (folderPath_of settings ++ "/" ++ filename).

Definition saveToAnalysisFolder
    (settings : ArchitectSettings) (filename content : string) (w : World) : result World :=
  let folderPath := folderPath_of settings in
  let folder := getAbstractFileByPath (vault w) folderPath in
  w ← match folder with
      | None => v ← createFolder (vault w) folderPath; Ok (set_vault v w)
      | Some _ => Ok w
      end;
  let filePath := normalizePath (folderPath ++ "/" ++ filename) in
  let file := getAbstractFileByPath (vault w) filePath in
  w ← match file with
      | Some (TFile _) =>
          v ← modify (vault w) filePath content;
          Ok (Notice ("Updated: " ++ filePath) (set_vault v w))
      | _ =>
          v ← create (vault w) filePath content;
          Ok (Notice ("Created: " ++ filePath) (set_vault v w))
      end;
  let targetFile := getAbstractFileByPath (vault w) filePath in
  match targetFile with
  | Some (TFile _) => Ok (openFile filePath w)
  | _ => Ok w
  end.

(** [saveToAnalysisFolder] once more, keeping the world a raise leaves
    behind: the answer is the world at the end or at the raise, and the
    error if one was raised. *)
Definition saveToAnalysisFolder_run
    (settings : ArchitectSettings) (filename content : string) (w : World) : World * option exn :=
  let folderPath := folderPath_of settings in
  let folder := getAbstractFileByPath (vault w) folderPath in
  match (match folder with
         | None => createFolder (vault w) folderPath
         | Some _ => Ok (vault w)
         end) with
  | Throw e => (w, Some e)
  | Ok v =>
      let w := set_vault v w in
      let filePath := normalizePath (folderPath ++ "/" ++ filename) in
      let file := getAbstractFileByPath (vault w) filePath in
      match (match file with
             | Some (TFile _) =>
                 v ← modify (vault w) filePath content;
                 Ok (Notice ("Updated: " ++ filePath) (set_vault v w))
             | _ =>
                 v ← create (vault w) filePath content;
                 Ok (Notice ("Created: " ++ filePath) (set_vault v w))
             end) with
      | Throw e => (w, Some e)
      | Ok w =>
          let targetFile := getAbstractFileByPath (vault w) filePath in
          match targetFile with
          | Some (TFile _) => (openFile filePath w, None)
          | _ => (w, None)
          end
      end
  end.

(** [files] is what [getMarkdownFiles] and [getFileCache] answer,
    [now] what [new Date().toLocaleString()] answers. The answer is the
    world the command leaves, also when it raises, and the error if one
    was raised. *)
Definition generateGlobalDashboard
    (settings : ArchitectSettings) (files : list Doc) (now : string) (w : World) :
    World * option exn :=
  let w := Notice "Architect: Scanning entire vault..." w in
  match crunch files with
  | Throw e => (w, Some e)
  | Ok a =>
      let md := dashboardContent now a in
      saveToAnalysisFolder_run settings "ARCHITECT_ANALYTICS_DASHBOARD.md" md w
  end.

End Plugin.

(** ** Settings *)

(** A settings record as the object that is persisted. *)
Definition settings_object (s : ArchitectSettings) : gmap string jsval :=
  {[ "analysisFolder" := JStr (analysisFolder s);
     "schema" := JObj {[ "level1" := JStr (level1 (schema s));
                         "level2" := JStr (level2 (schema s));
                         "level3" := JStr (level3 (schema s)) ]} ]}.

(** [Object.assign(target, ...sources)]: own properties are copied in
    order; a null or undefined source is skipped. *)
Definition Object_assign (target : gmap string jsval)
    (sources : list (option (gmap string jsval))) : gmap string jsval :=
  foldl (λ target source, match source with
                          | Some o => o ∪ target
                          | None => target
                          end) target sources.

(** [data] is what [loadData] answers: nothing, or the stored record. *)
Definition loadSettings (data : option (gmap string jsval)) : gmap string jsval :=
  Object_assign ∅ [Some (settings_object DEFAULT_SETTINGS); data].

(** Reading the loaded object at the type the plugin declares for it. *)
Definition read_string (v : option jsval) : option string :=
  match v with
  | Some (JStr s) => Some s
  | _ => None
  end.

Definition read_schema (v : option jsval) : option Schema :=
  match v with
  | Some (JObj o) =>
      l1 ← read_string (o !! "level1");
      l2 ← read_string (o !! "level2");
      l3 ← read_string (o !! "level3");
      Some {| level1 := l1; level2 := l2; level3 := l3 |}
  | _ => None
  end.

Definition read_settings (o : gmap string jsval) : option ArchitectSettings :=
  folder ← read_string (o !! "analysisFolder");
  sch ← read_schema (o !! "schema");
  Some {| analysisFolder := folder; schema := sch |}.

(** The plugin's settings in memory and what [saveData] last stored. *)
Record PluginState := {
  plugin_settings : ArchitectSettings;
  plugin_data : option (gmap string jsval)
}.

(** [saveData(this.settings)] *)
Definition saveSettings (st : PluginState) : PluginState :=
  {| plugin_settings := plugin_settings st;
     plugin_data := Some (settings_object (plugin_settings st)) |}.

(** The [onChange] handlers of the settings tab: assign the field, then
    save. *)
Definition onChange_analysisFolder (value : string) (st : PluginState) : PluginState :=
  saveSettings
    {| plugin_settings := {| analysisFolder := value; schema := schema (plugin_settings st) |};
       plugin_data := plugin_data st |}.

Definition onChange_level1 (value : string) (st : PluginState) : PluginState :=
  saveSettings
    {| plugin_settings :=
         {| analysisFolder := analysisFolder (plugin_settings st);
            schema := {| level1 := value;
                         level2 := level2 (schema (plugin_settings st));
                         level3 := level3 (schema (plugin_settings st)) |} |};
       plugin_data := plugin_data st |}.

Definition onChange_level2 (value : string) (st : PluginState) : PluginState :=
  saveSettings
    {| plugin_settings :=
         {| analysisFolder := analysisFolder (plugin_settings st);
            schema := {| level1 := level1 (schema (plugin_settings st));
                         level2 := value;
                         level3 := level3 (schema (plugin_settings st)) |} |};
       plugin_data := plugin_data st |}.

Definition onChange_level3 (value : string) (st : PluginState) : PluginState :=
  saveSettings
    {| plugin_settings :=
         {| analysisFolder := analysisFolder (plugin_settings st);
            schema := {| level1 := level1 (schema (plugin_settings st));
                         level2 := level2 (schema (plugin_settings st));
                         level3 := value |} |};
       plugin_data := plugin_data st |}.

(** [onload]: the settings the plugin starts with, when the loaded
    object has the shape the plugin declares. *)
Definition onload_settings (data : option (gmap string jsval)) : option ArchitectSettings :=
  read_settings (loadSettings data).

(** * Vocabulary of the properties *)

(** ** Tiers *)

(** The [type] field of a frontmatter that may be missing. *)
Definition frontmatter_type (fm : option (gmap string jsval)) : option jsval :=
  fm ≫= (λ o, o !! "type").

(** The words the code compares a lower-cased [type] with. *)
Definition tier1_words : list string := ["atom"; "signal"].
Definition tier2_words : list string := ["molecule"; "pattern"].
Definition tier3_words : list string := ["law"; "constant"].
Definition canonical_words : list string :=
  (tier1_words ++ tier2_words ++ tier3_words)%list.

Inductive tier := Tier1 | Tier2 | Tier3.

(** The three tier counters, and one more file in a bucket. *)
Definition tier_counts (a : Aggregate) : nat * nat * nat :=
  (signals (counts a), patterns (counts a), constants (counts a)).

Definition bump (t : tier) (n : nat * nat * nat) : nat * nat * nat :=
  match t, n with
  | Tier1, (s, p, c) => (S s, p, c)
  | Tier2, (s, p, c) => (s, S p, c)
  | Tier3, (s, p, c) => (s, p, S c)
  end.

(** A [type] the classifier hands back as a tier name of its own. *)
Definition custom_type (fm : gmap string jsval) : Prop :=
  ∃ type, fm !! "type" = Some (JStr type) ∧ type ≠ "" ∧ toLowerCase type ∉ canonical_words.

(** The reading of the aggregate view in which only custom types escape
    the buckets: a file whose type is not custom lands in the bucket of
    the label the classifier gives it. *)
Definition counted_as_classified (settings : ArchitectSettings) (file : Doc) : Prop :=
  ∀ fm label a a',
    cache_frontmatter (cache file) = Some fm →
    ¬ custom_type fm →
    scanConnections_myType settings (Some fm) = Ok label →
    crunch_file a file = Ok a' →
    (label = level1 (schema settings) → tier_counts a' = bump Tier1 (tier_counts a)) ∧
    (label = level2 (schema settings) → tier_counts a' = bump Tier2 (tier_counts a)) ∧
    (label = level3 (schema settings) → tier_counts a' = bump Tier3 (tier_counts a)).

(** ** Counting *)

Definition tier_sum (a : Aggregate) : nat :=
  signals (counts a) + patterns (counts a) + constants (counts a).

Definition has_frontmatter (file : Doc) : Prop :=
  is_Some (cache_frontmatter (cache file)).

#[global] Instance has_frontmatter_dec (file : Doc) : Decision (has_frontmatter file).
Proof. unfold has_frontmatter. apply _. Defined.

(** The files the loop does not skip. *)
Definition with_frontmatter (files : list Doc) : list Doc := filter has_frontmatter files.

(** The [type] of a file is fit for the loop: a string, or falsy. *)
Definition type_ok (file : Doc) : Prop :=
  ∀ fm, cache_frontmatter (cache file) = Some fm →
    match prop fm "type" with
    | JStr _ => True
    | v => truthy v = false
    end.

(** The [type] of a file lower-cases to one of the six words. *)
Definition canonical_doc (file : Doc) : Prop :=
  ∃ fm type, cache_frontmatter (cache file) = Some fm ∧
    fm !! "type" = Some (JStr type) ∧ toLowerCase type ∈ canonical_words.

(** A breakthrough, in the words of the specification: the file has
    frontmatter, and the tag is among its tags or the flag is the
    boolean true. *)
Definition counts_as_breakthrough (file : Doc) : Prop :=
  ∃ c fm, cache file = Some c ∧ frontmatter c = Some fm ∧
    ((∃ ts el, tags c = Some ts ∧ el ∈ ts ∧ TagCache.tag el = "#breakthrough") ∨
     fm !! "breakthrough" = Some (JBool true)).

(** The file has frontmatter and its flag is the boolean true. *)
Definition flagged (file : Doc) : Prop :=
  ∃ fm, cache_frontmatter (cache file) = Some fm ∧
    fm !! "breakthrough" = Some (JBool true).

(** The test of the loop, on a file it does not skip. *)
Definition breakthrough_doc (file : Doc) : bool :=
  match cache_frontmatter (cache file) with
  | Some fm => is_breakthrough (cache file) fm
  | None => false
  end.

#[global] Instance flagged_dec (file : Doc) : Decision (flagged file).
Proof.
  unfold Decision, flagged.
  destruct (cache_frontmatter (cache file)) as [fm|];
    [|right; by intros (fm & [=] & _)].
  destruct (fm !! "breakthrough") as [[| |[]| | | |]|] eqn:Hflag;
    try (right; intros (fm' & [= <-] & Hflag'); congruence).
  left. by exists fm.
Defined.

#[global] Instance counts_as_breakthrough_dec (file : Doc) : Decision (counts_as_breakthrough file).
Proof.
  unfold Decision, counts_as_breakthrough.
  destruct (cache file) as [c|]; [|right; by intros (c & fm & [=] & _)].
  destruct (frontmatter c) as [fm|] eqn:Hfm;
    [|right; intros (c' & fm' & [= <-] & Hfm' & _); congruence].
  assert (Htag : {∃ ts el, tags c = Some ts ∧ el ∈ ts ∧ TagCache.tag el = "#breakthrough"}
                 + {¬ ∃ ts el, tags c = Some ts ∧ el ∈ ts ∧ TagCache.tag el = "#breakthrough"}).
  { destruct (tags c) as [ts|]; [|right; by intros (ts & el & [=] & _)].
    destruct (decide (Exists (λ el, TagCache.tag el = "#breakthrough") ts)) as [Hin|Hout].
    - left. apply Exists_exists in Hin as (el & Hel & Htag). by exists ts, el.
    - right. intros (ts' & el & [= <-] & Hel & Htag). apply Hout, Exists_exists. eauto. }
  assert (Hflag : {fm !! "breakthrough" = Some (JBool true)}
                  + {fm !! "breakthrough" ≠ Some (JBool true)}).
  { destruct (fm !! "breakthrough") as [[| |[]| | | |]|];
      (left; reflexivity) || (right; discriminate). }
  destruct Htag as [Htag|Htag]; [left; by exists c, fm; auto|].
  destruct Hflag as [Hflag|Hflag]; [left; by exists c, fm; auto|].
  right. intros (c' & fm' & [= <-] & Hfm' & H). simplify_eq. tauto.
Defined.

(** ** The diagram, piece by piece *)

Fixpoint string_concat (l : list string) : string :=
  match l with
  | [] => ""
  | x :: l' => x ++ string_concat l'
  end.

(** The identifier and the declaration of the node at [index]. *)
Definition nodeId (index : nat) : string := "Node" ++ pretty index.

Definition edgeDecl (index : nat) (text : string) : string :=
  "    Center --> " ++ nodeId index ++ "[" ++ dq ++ text ++ dq ++ "]" ++ nl.

(** What is in [graph] when the loop over the nodes starts. *)
Definition mermaidHead (data : ConnectionMap) (centralName : string) : string :=
  string_concat [
    "graph TD" ++ nl;
    "    classDef signal fill:#e1f5fe,stroke:#01579b,stroke-width:2px;" ++ nl;
    "    classDef pattern fill:#e8f5e9,stroke:#1b5e20,stroke-width:4px;" ++ nl;
    "    classDef constant fill:#fff8e1,stroke:#ff6f00,stroke-width:6px;" ++ nl;
    "    Center[" ++ dq ++ centralName ++ dq ++ "]:::" ++ toLowerCase (myType data) ++ nl
  ].

(** ** The report and its writer *)

(** [ratio > 10] *)
Definition noisy (c : Counts) : bool := SFltb (Number 10) (ratio c).

(** [counts.constants === 0 && counts.patterns > 5] *)
Definition ready (c : Counts) : Prop := constants c = 0 ∧ (5 < patterns c)%nat.

Definition mkCounts (s p c b : nat) : Counts :=
  {| signals := s; patterns := p; constants := c; breakthroughs := b |}.

(** The text up to the timestamp. *)
Definition dashboardStamp : string :=
  "---" ++ nl ++ "cssclass: dashboard" ++ nl ++ "tags: [dashboard, analytics]" ++ nl
  ++ "updated: ".

(** The vault once the analysis folder is there. *)
Definition ensured (normalizePath : string → string) (settings : ArchitectSettings)
    (v : gmap string TAbstractFile) : gmap string TAbstractFile :=
  match v !! folderPath_of normalizePath settings with
  | None => <[folderPath_of normalizePath settings := TFolder]> v
  | Some _ => v
  end.

(** ** The tally, in terms of the files *)

(** The [type] of a file lower-cases to one of [words]. *)
Definition tier_doc (words : list string) (file : Doc) : Prop :=
  ∃ fm type, cache_frontmatter (cache file) = Some fm ∧
    fm !! "type" = Some (JStr type) ∧ toLowerCase type ∈ words.

#[global] Instance tier_doc_dec (words : list string) (file : Doc) : Decision (tier_doc words file).
Proof.
  unfold Decision, tier_doc.
  destruct (cache_frontmatter (cache file)) as [fm|];
    [|right; by intros (fm & type & [=] & _)].
  destruct (fm !! "type") as [[| | | |type| |]|] eqn:Htype;
    try (right; intros (fm' & type' & [= <-] & Htype' & _); congruence).
  destruct (decide (toLowerCase type ∈ words)) as [Hin|Hout].
  - left. by exists fm, type.
  - right. intros (fm' & type' & [= <-] & Htype' & Hin). congruence.
Defined.

(** What the loop over [files] is to end with. *)
Definition tallied (files : list Doc) : Aggregate :=
  {| counts := {| signals := length (filter (tier_doc tier1_words) files);
                  patterns := length (filter (tier_doc tier2_words) files);
                  constants := length (filter (tier_doc tier3_words) files);
                  breakthroughs := length (filter flagged files) |};
     constantList := wikilink <$> filter (tier_doc tier3_words) files;
     patternList := wikilink <$> filter (tier_doc tier2_words) files |}.

(** ** Numerals *)

(** A string of decimal digits. *)
Fixpoint all_digits (s : string) : bool :=
  match s with
  | EmptyString => true
  | String c s' => is_digit c && all_digits s'
  end.

(** ** Styling *)

(** The classes the diagram declares with [classDef]. *)
Definition declared_classes : list string := ["signal"; "pattern"; "constant"].

(** ** Sample data *)

Definition untyped_note : Doc :=
  {| basename := "Untyped";
     cache := Some {| links := None; frontmatter := Some {[ "title" := JStr "Untyped" ]}; tags := None |} |}.

Definition pattern_note : Doc :=
  {| basename := "Resonance";
     cache := Some {| links := None; frontmatter := Some {[ "type" := JStr "Pattern" ]}; tags := None |} |}.

(** The cached tag [text] found at [offset] of the first line after
    the frontmatter. *)
Definition hashtag (text : string) (offset : nat) : TagCache.t :=
  {| TagCache.tag := text;
     TagCache.position :=
       {| TagCache.pos_start := {| TagCache.line := 4; TagCache.col := offset;
                                   TagCache.offset := 40 + offset |};
          TagCache.pos_end := {| TagCache.line := 4; TagCache.col := offset + String.length text;
                                 TagCache.offset := 40 + offset + String.length text |} |} |}.

Definition law_note : Doc :=
  {| basename := "Conservation";
     cache := Some {| links := None;
                      frontmatter := Some {[ "type" := JStr "Law"; "breakthrough" := JBool true ]};
                      tags := Some [hashtag "#physics" 0; hashtag "#breakthrough" 9] |} |}.

(** A note that carries the tag and no flag. *)
Definition tagged_note : Doc :=
  {| basename := "Insight";
     cache := Some {| links := None;
                      frontmatter := Some {[ "type" := JStr "signal" ]};
                      tags := Some [hashtag "#breakthrough" 0] |} |}.

Definition bare_note : Doc := {| basename := "Scratch"; cache := None |}.

Definition sample_vault : list Doc := [pattern_note; untyped_note; bare_note; law_note].

Definition old_vault : World :=
  {| vault := {[ "Data Analytics" := TFolder;
                 "Data Analytics/ARCHITECT_ANALYTICS_DASHBOARD.md" := TFile "stale report" ]};
     notices := []; opened := [] |}.

(** * Properties *)


(** ** The tier classifier *)

Lemma eqb_or_elem (t a b : string) : (t =? a) || (t =? b) = true ↔ t ∈ [a; b].
Proof.
  rewrite orb_true_iff, !String.eqb_eq, !elem_of_cons, elem_of_nil. tauto.
Qed.

Lemma eqb_or_not_elem (t a b : string) : (t =? a) || (t =? b) = false ↔ t ∉ [a; b].
Proof.
  rewrite <- eqb_or_elem. destruct ((t =? a) || (t =? b)); split; congruence.
Qed.

Ltac case_words :=
  repeat match goal with
  | |- context [(?t =? ?a) || (?t =? ?b)] =>
      let E := fresh "E" in
      destruct ((t =? a) || (t =? b)) eqn:E;
      [apply eqb_or_elem in E | apply eqb_or_not_elem in E]
  end.

Ltac word_clash :=
  repeat match goal with
  | H : _ ∈ _ :: _ |- _ => apply elem_of_cons in H; destruct H as [H|H]
  | H : _ ∈ [] |- _ => apply elem_of_nil in H; destruct H
  | H : "" = String _ _ |- _ => discriminate H
  | H : ?t = _, H' : ?t = _ |- _ => rewrite H in H'; discriminate H'
  end.

Lemma prop_lookup (o : gmap string jsval) (k : string) (v : jsval) :
  o !! k = Some v → prop o k = v.
Proof. unfold prop. by intros ->. Qed.

Lemma prop_absent (o : gmap string jsval) (k : string) :
  o !! k = None → prop o k = JUndefined.
Proof. unfold prop. by intros ->. Qed.

Lemma truthy_JStr (s : string) : truthy (JStr s) = false ↔ s = "".
Proof.
  simpl. destruct (String.eqb_spec s ""); simpl; split; congruence.
Qed.

Lemma myType_of_string (settings : ArchitectSettings) (o : gmap string jsval) (type : string) :
  o !! "type" = Some (JStr type) →
  scanConnections_myType settings (Some o) =
    Ok (let t := toLowerCase type in
        if type =? "" then level1 (schema settings)
        else if (t =? "law") || (t =? "constant") then level3 (schema settings)
        else if (t =? "molecule") || (t =? "pattern") then level2 (schema settings)
        else if (t =? "atom") || (t =? "signal") then level1 (schema settings)
        else type).
Proof.
  intros Hty. unfold scanConnections_myType. rewrite (prop_lookup _ _ _ Hty). simpl.
  destruct (type =? ""); simpl; [reflexivity|].
  by repeat match goal with |- context [if ?b then _ else _] => destruct b end.
Qed.

Lemma myType_absent (settings : ArchitectSettings) (fm : option (gmap string jsval)) :
  frontmatter_type fm = None →
  scanConnections_myType settings fm = Ok (level1 (schema settings)).
Proof.
  destruct fm as [o|]; simpl; [|done].
  intros Hty. unfold scanConnections_myType. by rewrite (prop_absent _ _ Hty).
Qed.

(** C1. For a [type] that is a string or absent the classifier raises
    nothing and answers: the level-1 label for atom and signal, the
    level-2 label for molecule and pattern, the level-3 label for law
    and constant (compared in lower case), the value itself for any
    other non-empty string, and the level-1 label when the field or
    the whole frontmatter is absent. *)
Theorem classifier_mapping
    (settings : ArchitectSettings) (fm : option (gmap string jsval)) (ty : option string) :
  frontmatter_type fm = JStr <$> ty →
  ∃ label, scanConnections_myType settings fm = Ok label ∧
    match ty with
    | Some type =>
        (toLowerCase type ∈ tier1_words → label = level1 (schema settings)) ∧
        (toLowerCase type ∈ tier2_words → label = level2 (schema settings)) ∧
        (toLowerCase type ∈ tier3_words → label = level3 (schema settings)) ∧
        (type ≠ "" →
         toLowerCase type ∉ canonical_words →
         label = type)
    | None => label = level1 (schema settings)
    end.
Proof.
  intros Hty. destruct ty as [type|]; simpl in Hty.
  - destruct fm as [o|]; [simpl in Hty|discriminate].
    rewrite (myType_of_string _ _ _ Hty). eexists; split; [reflexivity|].
    unfold canonical_words, tier1_words, tier2_words, tier3_words. simpl.
    destruct (String.eqb_spec type "") as [->|Hne].
    + repeat split; intros; try congruence; simpl in *; word_clash.
    + case_words; repeat split; intros; try reflexivity; try word_clash;
        exfalso; set_solver.
  - rewrite (myType_absent _ _ Hty). eauto.
Qed.

Lemma classifier_mapping_witness :
  ∃ label,
    scanConnections_myType DEFAULT_SETTINGS (Some {[ "type" := JStr "Molecule" ]}) = Ok label ∧
    (toLowerCase "Molecule" ∈ tier1_words → label = "Signal") ∧
    (toLowerCase "Molecule" ∈ tier2_words → label = "Pattern") ∧
    (toLowerCase "Molecule" ∈ tier3_words → label = "Constant") ∧
    ("Molecule" ≠ "" →
     toLowerCase "Molecule" ∉ canonical_words →
     label = "Molecule").
Proof.
  apply (classifier_mapping DEFAULT_SETTINGS
           (Some {[ "type" := JStr "Molecule" ]}) (Some "Molecule")).
  vm_compute. reflexivity.
Defined.

(** Outside that domain the classifier raises: a truthy [type] that is
    not a string has no [toLowerCase]. *)
Example classifier_number_type :
  scanConnections_myType DEFAULT_SETTINGS (Some {[ "type" := JNum (Number 5) ]}) = Throw TypeError.
Proof. reflexivity. Qed.

Example classifier_upper_case :
  scanConnections_myType DEFAULT_SETTINGS (Some {[ "type" := JStr "LAW" ]}) = Ok "Constant".
Proof. reflexivity. Qed.

Example classifier_custom :
  scanConnections_myType DEFAULT_SETTINGS (Some {[ "type" := JStr "Essay" ]}) = Ok "Essay".
Proof. reflexivity. Qed.

(** ** The aggregator against the classifier *)

Lemma crunch_type (fm : gmap string jsval) (ty : option string) :
  fm !! "type" = JStr <$> ty →
  call_toLowerCase (js_or (prop fm "type") (JStr "")) = Ok (toLowerCase (default "" ty)).
Proof.
  intros Hty. destruct ty as [type|]; simpl in Hty.
  - rewrite (prop_lookup _ _ _ Hty). unfold js_or.
    destruct (truthy (JStr type)) eqn:Htruthy; [reflexivity|].
    apply truthy_JStr in Htruthy. by subst type.
  - by rewrite (prop_absent _ _ Hty).
Qed.

Lemma tier_counts_breakthrough (b : bool) (a : Aggregate) :
  tier_counts (when b inc_breakthroughs a) = tier_counts a.
Proof. by destruct b. Qed.

(** C2, as stated, fails: a note with frontmatter but no [type] is a
    level-1 note for the classifier and lands in no bucket, although
    its type is not a custom string. *)
Lemma untyped_note_not_counted : ¬ counted_as_classified DEFAULT_SETTINGS untyped_note.
Proof.
  intros H.
  destruct (H {[ "title" := JStr "Untyped" ]} "Signal" no_counts no_counts) as (H1 & _).
  - reflexivity.
  - intros (type & Htype & _). vm_compute in Htype. discriminate Htype.
  - reflexivity.
  - reflexivity.
  - specialize (H1 eq_refl). discriminate H1.
Qed.

(** C2, amended. A file with frontmatter whose [type] lower-cases to a
    canonical word is counted in exactly the bucket of the label the
    classifier gives it; a file whose [type] is a custom string, is
    empty or is absent is counted in no bucket (the classifier answers
    the custom string, respectively the level-1 label). *)
Theorem aggregator_bucket
    (settings : ArchitectSettings) (file : Doc) (fm : gmap string jsval)
    (ty : option string) (a : Aggregate) :
  cache_frontmatter (cache file) = Some fm →
  fm !! "type" = JStr <$> ty →
  ∃ label a',
    scanConnections_myType settings (Some fm) = Ok label ∧
    crunch_file a file = Ok a' ∧
    let t := toLowerCase (default "" ty) in
    (t ∈ tier1_words →
       label = level1 (schema settings) ∧ tier_counts a' = bump Tier1 (tier_counts a)) ∧
    (t ∈ tier2_words →
       label = level2 (schema settings) ∧ tier_counts a' = bump Tier2 (tier_counts a)) ∧
    (t ∈ tier3_words →
       label = level3 (schema settings) ∧ tier_counts a' = bump Tier3 (tier_counts a)) ∧
    (t ∉ canonical_words →
       tier_counts a' = tier_counts a ∧
       label = match ty with
               | Some type => if type =? "" then level1 (schema settings) else type
               | None => level1 (schema settings)
               end).
Proof.
  intros Hfm Hty.
  unfold crunch_file. rewrite Hfm, (crunch_type _ _ Hty). simpl.
  unfold canonical_words, tier1_words, tier2_words, tier3_words.
  destruct ty as [type|]; simpl in *.
  - do 2 eexists.
    split; [apply (myType_of_string _ _ _ Hty)|]; split; [reflexivity|].
    rewrite !tier_counts_breakthrough. simpl.
    destruct (String.eqb_spec type "") as [->|Hne].
    + simpl. repeat split; intros; try reflexivity; exfalso; word_clash.
    + case_words; unfold when; repeat split; intros; try reflexivity; try word_clash;
        exfalso; set_solver.
  - do 2 eexists.
    split; [apply (myType_absent _ (Some fm) Hty)|]; split; [reflexivity|].
    rewrite !tier_counts_breakthrough. simpl.
    repeat split; intros; try reflexivity; exfalso; word_clash.
Qed.

Lemma aggregator_bucket_witness :
  ∃ label a',
    scanConnections_myType DEFAULT_SETTINGS (Some {[ "type" := JStr "Pattern" ]}) = Ok label ∧
    crunch_file no_counts pattern_note = Ok a' ∧
    label = "Pattern" ∧ tier_counts a' = (0, 1, 0).
Proof.
  destruct (aggregator_bucket DEFAULT_SETTINGS pattern_note
              {[ "type" := JStr "Pattern" ]} (Some "Pattern") no_counts)
    as (label & a' & Hlabel & Hfile & _ & H2 & _).
  - reflexivity.
  - vm_compute. reflexivity.
  - exists label, a'. repeat split; try assumption; apply H2; repeat constructor.
Defined.

(** ** Counting *)

Lemma tags_include_never (ts : option (list TagCache.t)) (tag : string) :
  tags_include ts tag = false.
Proof.
  destruct ts as [ts|]; [|reflexivity]. simpl.
  induction ts as [|el ts IH]; [reflexivity|exact IH].
Qed.

Lemma is_true_spec (o : gmap string jsval) (k : string) :
  is_true (prop o k) = true ↔ o !! k = Some (JBool true).
Proof.
  unfold prop. destruct (o !! k) as [[| |[]| | | |]|]; simpl; split; congruence.
Qed.

Lemma breakthrough_doc_spec (file : Doc) :
  breakthrough_doc file = true ↔ flagged file.
Proof.
  unfold breakthrough_doc, flagged, is_breakthrough.
  destruct (cache_frontmatter (cache file)) as [fm|].
  - rewrite tags_include_never, orb_false_l, is_true_spec. split.
    + intros H. by exists fm.
    + by intros (fm' & [= <-] & H).
  - split; [done|]. by intros (fm' & [=] & _).
Qed.

(** What one iteration does to the counters. *)
Lemma crunch_file_skip (a : Aggregate) (file : Doc) :
  cache_frontmatter (cache file) = None → crunch_file a file = Ok a.
Proof. unfold crunch_file. by intros ->. Qed.

Lemma crunch_file_counts (a a' : Aggregate) (file : Doc) (fm : gmap string jsval) :
  cache_frontmatter (cache file) = Some fm →
  crunch_file a file = Ok a' →
  ∃ t, call_toLowerCase (js_or (prop fm "type") (JStr "")) = Ok t ∧
    tier_sum a' = tier_sum a + (if decide (t ∈ canonical_words) then 1 else 0) ∧
    breakthroughs (counts a') =
      breakthroughs (counts a) + (if breakthrough_doc file then 1 else 0).
Proof.
  intros Hfm. unfold crunch_file, breakthrough_doc. rewrite Hfm.
  destruct (call_toLowerCase _) as [t|e]; simpl; [|discriminate].
  intros [= <-]. exists t. split; [reflexivity|].
  unfold canonical_words, tier1_words, tier2_words, tier3_words.
  destruct (is_breakthrough (cache file) fm); case_words; case_decide;
    unfold tier_sum, when; simpl; try (split; lia);
    exfalso; try word_clash; set_solver.
Qed.

Lemma crunch_type_canonical (fm : gmap string jsval) (t : string) :
  call_toLowerCase (js_or (prop fm "type") (JStr "")) = Ok t →
  t ∈ canonical_words →
  ∃ type, fm !! "type" = Some (JStr type) ∧ toLowerCase type = t.
Proof.
  unfold js_or, prop. intros Hcall Ht.
  destruct (fm !! "type") as [v|] eqn:Hv; simpl in Hcall.
  - destruct (truthy v) eqn:Htruthy.
    + destruct v; try discriminate. injection Hcall as <-. eauto.
    + injection Hcall as <-. exfalso.
      unfold canonical_words, tier1_words, tier2_words, tier3_words in Ht.
      simpl in Ht. word_clash.
  - injection Hcall as <-. exfalso.
    unfold canonical_words, tier1_words, tier2_words, tier3_words in Ht.
    simpl in Ht. word_clash.
Qed.

Lemma crunch_file_total (a : Aggregate) (file : Doc) :
  type_ok file → ∃ a', crunch_file a file = Ok a'.
Proof.
  intros Hok. unfold crunch_file.
  destruct (cache_frontmatter (cache file)) as [fm|] eqn:Hfm; [|eauto].
  specialize (Hok fm Hfm). unfold js_or.
  destruct (prop fm "type") as [| |b|x|s|l|o]; simpl in *;
    try discriminate; try rewrite Hok; simpl; eauto.
  destruct (negb _); simpl; eauto.
Qed.

Lemma crunch_from_total (files : list Doc) (a : Aggregate) :
  Forall type_ok files → ∃ a', crunch_from a files = Ok a'.
Proof.
  intros Hok. revert a. induction Hok as [|file files Hfile _ IH]; intros a; simpl.
  - eauto.
  - destruct (crunch_file_total a file Hfile) as (a1 & ->). simpl. apply IH.
Qed.

Lemma filter_cons_length {A} (P : A → Prop) `{!∀ x, Decision (P x)} (x : A) (l : list A) :
  length (filter P (x :: l)) = (if decide (P x) then 1 else 0) + length (filter P l).
Proof. rewrite filter_cons. by destruct (decide (P x)). Qed.

(** The loop invariant, for a run that starts from any counters. *)
Lemma crunch_from_counts (files : list Doc) (a a' : Aggregate) :
  crunch_from a files = Ok a' →
  (tier_sum a' ≤ tier_sum a + length (with_frontmatter files))%nat ∧
  (tier_sum a' = tier_sum a + length (with_frontmatter files) ↔
     Forall (λ file, has_frontmatter file → canonical_doc file) files) ∧
  breakthroughs (counts a') =
    breakthroughs (counts a) + length (filter flagged files).
Proof.
  revert a. induction files as [|file files IH]; intros a; simpl.
  - intros [= <-]. unfold with_frontmatter. simpl. repeat split; auto with lia.
  - destruct (crunch_file a file) as [a1|e] eqn:Hfile; simpl; [|discriminate].
    intros Hrest. destruct (IH _ Hrest) as (Hle & Heq & Hbr).
    unfold with_frontmatter in *. rewrite !filter_cons_length, Forall_cons.
    destruct (cache_frontmatter (cache file)) as [fm|] eqn:Hfm.
    + destruct (crunch_file_counts _ _ _ _ Hfm Hfile) as (t & Ht & Hsum & Hb).
      assert (Hdec : (if decide (flagged file) then 1 else 0)
                     = (if breakthrough_doc file then 1 else 0)).
      { destruct (breakthrough_doc file) eqn:Hbd.
        - rewrite decide_True; [done|]. by apply breakthrough_doc_spec.
        - rewrite decide_False; [done|]. rewrite <- breakthrough_doc_spec. congruence. }
      rewrite decide_True by (unfold has_frontmatter; rewrite Hfm; eauto).
      split; [|split].
      * destruct (decide (t ∈ canonical_words)); lia.
      * destruct (decide (t ∈ canonical_words)) as [Hin|Hnin].
        -- rewrite <- Heq. split.
           ++ intros Hsum'. split; [|lia]. intros _.
              destruct (crunch_type_canonical _ _ Ht Hin) as (type & Htype & <-).
              exists fm, type. auto.
           ++ intros [_ Hall]. lia.
        -- split; [lia|]. intros [Hcan _]. exfalso. apply Hnin.
           destruct Hcan as (fm' & type & Hfm' & Htype & Hin).
           { unfold has_frontmatter. rewrite Hfm. eauto. }
           rewrite Hfm in Hfm'. injection Hfm' as <-.
           rewrite (crunch_type fm (Some type) Htype) in Ht. simpl in Ht.
           by injection Ht as <-.
      * rewrite Hdec. lia.
    + rewrite (crunch_file_skip _ _ Hfm) in Hfile. injection Hfile as <-.
      rewrite decide_False by (unfold has_frontmatter; rewrite Hfm; by intros [? ?]).
      rewrite decide_False.
      2:{ intros (fm & Hf & _). congruence. }
      simpl. split; [exact Hle|]. split; [|exact Hbr].
      rewrite Heq. split; [intros H; split; [|done]|by intros [_ H]].
      unfold has_frontmatter. rewrite Hfm. by intros [? ?].
Qed.

Lemma type_ok_Some (b : string) (ls : option (list LinkCache.t)) (fm : gmap string jsval)
    (ts : option (list TagCache.t)) :
  match prop fm "type" with JStr _ => True | v => truthy v = false end →
  type_ok {| basename := b; cache := Some {| links := ls; frontmatter := Some fm; tags := ts |} |}.
Proof. intros H fm' [= <-]. exact H. Qed.

Lemma type_ok_bare (b : string) : type_ok {| basename := b; cache := None |}.
Proof. intros fm' [=]. Qed.

Lemma sample_vault_ok : Forall type_ok sample_vault.
Proof.
  repeat constructor.
  - apply type_ok_Some. unfold prop. by rewrite lookup_singleton_eq.
  - apply type_ok_Some. unfold prop. by rewrite lookup_singleton_ne.
  - apply type_ok_bare.
  - apply type_ok_Some. unfold prop. by rewrite lookup_insert_eq.
Qed.

Lemma crunch_throw_not_ok (files : list Doc) (e : exn) :
  crunch files = Throw e → ¬ Forall type_ok files.
Proof.
  intros He Hok. destruct (crunch_from_total files no_counts Hok) as (a & Ha).
  unfold crunch in He. congruence.
Qed.

(** One file moves at most one tier counter, by one. *)
Lemma crunch_file_one_bucket (a a' : Aggregate) (file : Doc) :
  crunch_file a file = Ok a' →
  tier_counts a' ∈ [tier_counts a; bump Tier1 (tier_counts a);
                    bump Tier2 (tier_counts a); bump Tier3 (tier_counts a)].
Proof.
  unfold crunch_file.
  destruct (cache_frontmatter (cache file)) as [fm|]; [|intros [= <-]; set_solver].
  destruct (call_toLowerCase _) as [t|e]; simpl; [|discriminate].
  intros [= <-]. rewrite tier_counts_breakthrough.
  case_words; unfold when, tier_counts; simpl; try set_solver; exfalso; word_clash.
Qed.

(** C6. Whenever the loop ends with counters, the three tier counters
    together do not exceed the number of files with frontmatter, and
    they reach it only if every such file has a [type] that lower-cases
    to a canonical word. The loop does end with counters when every
    [type] is a string or falsy; it raises only on a file whose [type]
    is neither. One file moves at most one of the three counters. *)
Theorem tier_counts_bounded (files : list Doc) :
  (Forall type_ok files → ∃ a, crunch files = Ok a) ∧
  (∀ e, crunch files = Throw e → ¬ Forall type_ok files) ∧
  (∀ a file a', crunch_file a file = Ok a' →
     tier_counts a' ∈ [tier_counts a; bump Tier1 (tier_counts a);
                       bump Tier2 (tier_counts a); bump Tier3 (tier_counts a)]) ∧
  ∀ a, crunch files = Ok a →
    (tier_sum a ≤ length (with_frontmatter files))%nat ∧
    (tier_sum a = length (with_frontmatter files) →
       ∀ file, file ∈ files → has_frontmatter file → canonical_doc file).
Proof.
  split; [apply crunch_from_total|]. split; [apply crunch_throw_not_ok|].
  split; [intros a file a'; apply crunch_file_one_bucket|].
  intros a Ha. destruct (crunch_from_counts _ _ _ Ha) as (Hle & Heq & _).
  split; [exact Hle|]. intros Hsum file Hin.
  apply Heq in Hsum. rewrite Forall_forall in Hsum. by apply Hsum.
Qed.

Lemma tier_counts_bounded_witness :
  ∃ a, crunch sample_vault = Ok a ∧ (tier_sum a ≤ 3)%nat.
Proof.
  destruct (tier_counts_bounded sample_vault) as (Htotal & _ & _ & Hbound).
  destruct (Htotal sample_vault_ok) as (a & Ha).
  exists a. split; [exact Ha|]. apply (Hbound a Ha).
Defined.

(** C4. The code misses the tag: whenever the loop ends with counters,
    the breakthrough counter is the number of files with frontmatter
    whose [breakthrough] field is the boolean true, and the tags play
    no part, because [includes] compares the cached tag objects with a
    string. A note that carries the tag [#breakthrough] and no flag is
    a breakthrough in the words of the specification and is not
    counted. *)
Theorem breakthrough_tag_missed :
  (∀ files a, crunch files = Ok a →
     breakthroughs (counts a) = length (filter flagged files)) ∧
  (∀ file, flagged file → counts_as_breakthrough file) ∧
  counts_as_breakthrough tagged_note ∧ ¬ flagged tagged_note ∧
  length (filter counts_as_breakthrough [tagged_note]) = 1 ∧
  crunch [tagged_note] =
    Ok {| counts := {| signals := 1; patterns := 0; constants := 0; breakthroughs := 0 |};
          constantList := []; patternList := [] |}.
Proof.
  split; [|split; [|split; [|split; [|split]]]].
  - intros files a Ha. by destruct (crunch_from_counts _ _ _ Ha) as (_ & _ & ->).
  - intros file (fm & Hfm & Hflag). unfold cache_frontmatter in Hfm.
    destruct (cache file) as [c|] eqn:Hc; [simpl in Hfm|discriminate].
    exists c, fm. split; [exact Hc|]. split; [exact Hfm|by right].
  - eexists _, _. split; [reflexivity|]. split; [reflexivity|]. left.
    eexists _, _. split; [reflexivity|]. split; [constructor|reflexivity].
  - intros (fm & [= <-] & Hflag). by rewrite lookup_singleton_ne in Hflag.
  - reflexivity.
  - reflexivity.
Qed.

(** A file with both the tag and the flag counts once, by its flag. *)
Example breakthrough_counted_once :
  crunch [law_note] =
    Ok {| counts := {| signals := 0; patterns := 0; constants := 1; breakthroughs := 1 |};
          constantList := ["- [[Conservation]]"]; patternList := [] |}.
Proof. reflexivity. Qed.

(** A truthy [type] that is not a string stops the whole scan. *)
Example crunch_number_type :
  crunch [pattern_note;
          {| basename := "Odd";
             cache := Some {| links := None; frontmatter := Some {[ "type" := JNum (Number 5) ]};
                              tags := None |} |}] = Throw TypeError.
Proof. reflexivity. Qed.

(** ** The diagram *)

#[local] Arguments String.append !_ _ / : simpl nomatch.

Lemma append_assoc (s1 s2 s3 : string) : (s1 ++ s2) ++ s3 = s1 ++ (s2 ++ s3).
Proof. induction s1 as [|c s1 IH]; simpl; congruence. Qed.

Lemma append_nil_r (s : string) : s ++ "" = s.
Proof. induction s as [|c s IH]; simpl; congruence. Qed.

Lemma length_append (s1 s2 : string) :
  String.length (s1 ++ s2) = (String.length s1 + String.length s2)%nat.
Proof. induction s1 as [|c s1 IH]; simpl; congruence. Qed.

Lemma append_inj_r (s1 s2 t : string) : s1 ++ t = s2 ++ t → s1 = s2.
Proof.
  revert s2. induction s1 as [|c1 s1 IH]; intros [|c2 s2] H; simpl in H.
  - reflexivity.
  - apply (f_equal String.length) in H. simpl in H. rewrite length_append in H. lia.
  - apply (f_equal String.length) in H. simpl in H. rewrite length_append in H. lia.
  - injection H as -> H. f_equal. by apply IH.
Qed.

Lemma forEach_from_append {A} (g : nat → A → string) (l : list A) (k : nat) (acc : string) :
  forEach_from (λ acc x index, acc ++ g index x) k l acc
  = acc ++ string_concat (imap (λ i, g (k + i)%nat) l).
Proof.
  revert k acc. induction l as [|x l IH]; intros k acc; simpl.
  - by rewrite append_nil_r.
  - rewrite IH, append_assoc, Nat.add_0_r. do 3 f_equal.
    apply imap_ext. intros i y _. simpl. f_equal. lia.
Qed.

Lemma generateMermaid_edges (data : ConnectionMap) (centralName : string) :
  generateMermaid data centralName
  = mermaidHead data centralName
    ++ string_concat (imap (λ i node, edgeDecl i (displayText node)) (nodes data)).
Proof.
  unfold generateMermaid, forEach.
  rewrite (forEach_from_append (λ i node, edgeDecl i (displayText node))).
  f_equal. unfold mermaidHead. simpl. rewrite append_nil_r. reflexivity.
Qed.

Lemma nodeId_inj : Inj (=) (=) nodeId.
Proof.
  intros i j H. unfold nodeId in H.
  apply String.app_inj in H. by apply pretty_nat_inj in H.
Qed.

Lemma nodeIds_NoDup (n : nat) : NoDup ("Center" :: (nodeId <$> seq 0 n)).
Proof.
  apply NoDup_cons. split.
  - intros Hin. apply list_elem_of_fmap in Hin as (i & Hi & _). discriminate Hi.
  - apply (NoDup_fmap_2 _). apply NoDup_seq.
Qed.

(** C5. The renderer appends one edge declaration per outgoing link, in
    order, each naming the node by its position; the identifiers of one
    rendering, [Center], [Node0], [Node1], ..., are pairwise distinct
    whatever the names of the nodes are. *)
Theorem mermaid_edges (data : ConnectionMap) (centralName : string) :
  let edges := imap (λ i node, edgeDecl i (displayText node)) (nodes data) in
  let ids := "Center" :: imap (λ i _, nodeId i) (nodes data) in
  generateMermaid data centralName = mermaidHead data centralName ++ string_concat edges ∧
  length edges = length (nodes data) ∧
  (∀ i node, nodes data !! i = Some node →
     edges !! i = Some ("    Center --> " ++ nodeId i ++ "[" ++ dq ++ displayText node ++ dq ++ "]" ++ nl)) ∧
  length ids = S (length (nodes data)) ∧
  NoDup ids.
Proof.
  intros edges ids. split; [apply generateMermaid_edges|].
  split; [apply length_imap|]. split; [|split].
  - intros i node Hnode. unfold edges. by rewrite list_lookup_imap, Hnode.
  - unfold ids. simpl. by rewrite length_imap.
  - unfold ids. rewrite imap_seq_0. apply nodeIds_NoDup.
Qed.

Example mermaid_same_names :
  generateMermaid
    {| myType := "Signal";
       nodes := [ {| name := "a b"; displayText := "first" |};
                  {| name := "ab"; displayText := "second" |};
                  {| name := "!?"; displayText := "third" |} ] |} "My Note"
  = string_concat [
      "graph TD" ++ nl;
      "    classDef signal fill:#e1f5fe,stroke:#01579b,stroke-width:2px;" ++ nl;
      "    classDef pattern fill:#e8f5e9,stroke:#1b5e20,stroke-width:4px;" ++ nl;
      "    classDef constant fill:#fff8e1,stroke:#ff6f00,stroke-width:6px;" ++ nl;
      "    Center[" ++ dq ++ "My Note" ++ dq ++ "]:::signal" ++ nl;
      "    Center --> Node0[" ++ dq ++ "first" ++ dq ++ "]" ++ nl;
      "    Center --> Node1[" ++ dq ++ "second" ++ dq ++ "]" ++ nl;
      "    Center --> Node2[" ++ dq ++ "third" ++ dq ++ "]" ++ nl ].
Proof. reflexivity. Qed.

(** C10. Two connection maps that differ only in the names of their
    nodes render to the same text. *)
Theorem mermaid_ignores_names (data1 data2 : ConnectionMap) (centralName : string) :
  myType data1 = myType data2 →
  displayText <$> nodes data1 = displayText <$> nodes data2 →
  generateMermaid data1 centralName = generateMermaid data2 centralName.
Proof.
  intros Htype Htexts. rewrite !generateMermaid_edges.
  unfold mermaidHead. rewrite Htype. f_equal.
  change (λ (i : nat) (node : Node), edgeDecl i (displayText node))
    with (λ i : nat, edgeDecl i ∘ displayText).
  by rewrite <- !imap_fmap, Htexts.
Qed.

Lemma mermaid_ignores_names_witness :
  generateMermaid
    {| myType := "Pattern"; nodes := [ {| name := "Entropy"; displayText := "see" |} ] |} "Hub"
  = generateMermaid
    {| myType := "Pattern"; nodes := [ {| name := "Grace/Law #2"; displayText := "see" |} ] |} "Hub".
Proof.
  apply (mermaid_ignores_names
           {| myType := "Pattern"; nodes := [ {| name := "Entropy"; displayText := "see" |} ] |}
           {| myType := "Pattern"; nodes := [ {| name := "Grace/Law #2"; displayText := "see" |} ] |}
           "Hub"); reflexivity.
Defined.

(** ** The insights *)

Lemma nat_or_max (n : nat) : nat_or n 1 = n `max` 1.
Proof. unfold nat_or. destruct n; simpl; lia. Qed.

Lemma insights_cases (c : Counts) :
  insights c =
    if noisy c then highSignalNoise (ratio c)
    else if decide (ready c) then readyForBreakthrough
    else healthyArchitecture.
Proof.
  unfold insights, noisy, ready. destruct (SFltb _ _); [reflexivity|].
  destruct (Nat.eqb_spec (constants c) 0), (Nat.ltb_spec 5 (patterns c)); simpl;
    case_decide; try reflexivity; exfalso; lia || tauto.
Qed.

Lemma insight_texts_distinct (r : spec_float) :
  highSignalNoise r ≠ readyForBreakthrough ∧
  highSignalNoise r ≠ healthyArchitecture ∧
  readyForBreakthrough ≠ healthyArchitecture.
Proof. repeat split; discriminate. Qed.

(** On small counters the binary64 test is the test on the integers. *)
Lemma noisy_small (s p : nat) :
  (s ≤ 400)%nat → (p ≤ 40)%nat →
  noisy (mkCounts s p 0 0) = (10 * (p `max` 1) <? s)%nat.
Proof.
  intros Hs Hp.
  assert (Hall : forallb (λ s, forallb (λ p,
            bool_decide (noisy (mkCounts s p 0 0) = (10 * (p `max` 1) <? s)%nat))
            (seq 0 41)) (seq 0 401) = true) by (vm_compute; reflexivity).
  rewrite forallb_forall in Hall. specialize (Hall s).
  rewrite forallb_forall in Hall. specialize (Hall ltac:(apply in_seq; lia) p ltac:(apply in_seq; lia)).
  by apply bool_decide_eq_true in Hall.
Qed.

Lemma noisy_counts (s p c b : nat) : noisy (mkCounts s p c b) = noisy (mkCounts s p 0 0).
Proof. reflexivity. Qed.

(** C3. The insights section is chosen by three tests taken in order,
    of which exactly one applies: the warning when the ratio of the
    signals to the patterns (to 1 when there is no pattern) exceeds 10,
    else the tip when there is no constant and more than five patterns,
    else the success message; the three texts differ. With 11 signals
    and 1 pattern the warning names the ratio 11.0; with 6 patterns and
    no constant the tip is chosen (for up to 60 signals); with 2
    signals, 2 patterns and 1 constant the success message is. *)
Theorem insights_branches :
  (∀ c : Counts,
     ratio c = SFdiv prec emax (Number (signals c)) (Number (patterns c `max` 1)) ∧
     (noisy c = true → insights c = highSignalNoise (ratio c)) ∧
     (noisy c = false → ready c → insights c = readyForBreakthrough) ∧
     (noisy c = false → ¬ ready c → insights c = healthyArchitecture) ∧
     highSignalNoise (ratio c) ≠ readyForBreakthrough ∧
     highSignalNoise (ratio c) ≠ healthyArchitecture ∧
     readyForBreakthrough ≠ healthyArchitecture) ∧
  (∀ now a, dashboardContent now a = dashboardHead now a ++ insights (counts a)) ∧
  (∀ c b, noisy (mkCounts 11 1 c b) = true ∧
          toFixed1 (ratio (mkCounts 11 1 c b)) = "11.0" ∧
          insights (mkCounts 11 1 c b) = highSignalNoise (ratio (mkCounts 11 1 c b))) ∧
  (∀ s b, (s ≤ 60)%nat → insights (mkCounts s 6 0 b) = readyForBreakthrough) ∧
  (∀ b, insights (mkCounts 2 2 1 b) = healthyArchitecture).
Proof.
  split; [|split; [|split; [|split]]].
  - intros c. split; [unfold ratio; by rewrite nat_or_max|].
    rewrite insights_cases.
    destruct (noisy c); (split; [|split; [|split]]);
      try apply insight_texts_distinct; try discriminate; intros;
      try reflexivity; case_decide; try reflexivity; tauto.
  - reflexivity.
  - intros c b. rewrite insights_cases, noisy_counts. repeat split.
  - intros s b Hs. rewrite insights_cases, noisy_counts, noisy_small by lia.
    replace (10 * (6 `max` 1) <? s)%nat with false
      by (symmetry; apply Nat.ltb_ge; simpl; lia).
    rewrite decide_True; [reflexivity|]. unfold ready. simpl. lia.
  - intros b. rewrite insights_cases, noisy_counts.
    rewrite decide_False; [reflexivity|]. unfold ready. simpl. lia.
Qed.

Lemma insights_branches_witness :
  insights (mkCounts 30 6 0 2) = readyForBreakthrough ∧
  insights (mkCounts 2 2 1 0) = healthyArchitecture.
Proof.
  destruct insights_branches as (_ & _ & _ & Hready & Hhealthy).
  split; [apply (Hready 30 2); lia | apply (Hhealthy 0)].
Defined.

(** From 61 signals on, the first test wins over the second. *)
Example insights_61_signals :
  insights (mkCounts 61 6 0 0) = highSignalNoise (ratio (mkCounts 61 6 0 0)) ∧
  toFixed1 (ratio (mkCounts 61 6 0 0)) = "10.2".
Proof. split; reflexivity. Qed.

(** ** The report *)

Lemma dashboardContent_stamp (a : Aggregate) :
  ∃ body, ∀ now, dashboardContent now a = dashboardStamp ++ now ++ body.
Proof.
  eexists. intros now. unfold dashboardContent, dashboardHead, dashboardStamp.
  cbn [unlines]. rewrite !append_assoc. reflexivity.
Qed.

Lemma dashboardContent_inj (now1 now2 : string) (a : Aggregate) :
  dashboardContent now1 a = dashboardContent now2 a → now1 = now2.
Proof.
  destruct (dashboardContent_stamp a) as (body & Hbody). rewrite !Hbody.
  intros H. apply String.app_inj in H. by apply append_inj_r in H.
Qed.

(** C7, as stated, fails: the text carries the time of the call, so two
    calls on the same counts give two texts. *)
Lemma dashboard_depends_on_clock :
  dashboardContent "11/2/2026, 9:00:00 AM" no_counts
  ≠ dashboardContent "11/2/2026, 9:00:01 AM" no_counts.
Proof. intros H. apply dashboardContent_inj in H. discriminate H. Qed.

(** C7, amended. The report is a function of the counts, the member
    lists and the timestamp read at the call: equal inputs and equal
    timestamps give the same text, the timestamp is spliced after a
    fixed prefix in front of a text that depends on the counts and the
    lists alone, and two calls on equal inputs give the same text
    exactly when they read the same timestamp. *)
Theorem dashboard_deterministic (a1 a2 : Aggregate) (now1 now2 : string) :
  a1 = a2 →
  (now1 = now2 → dashboardContent now1 a1 = dashboardContent now2 a2) ∧
  (∃ body, ∀ now, dashboardContent now a1 = dashboardStamp ++ now ++ body) ∧
  (dashboardContent now1 a1 = dashboardContent now2 a2 ↔ now1 = now2).
Proof.
  intros <-. split; [by intros ->|]. split; [apply dashboardContent_stamp|].
  split; [apply dashboardContent_inj|by intros ->].
Qed.

Lemma dashboard_deterministic_witness :
  dashboardContent "11/2/2026, 9:00:00 AM" no_counts
  = dashboardContent "11/2/2026, 9:00:00 AM" no_counts.
Proof.
  destruct (dashboard_deterministic no_counts no_counts
              "11/2/2026, 9:00:00 AM" "11/2/2026, 9:00:00 AM" eq_refl) as (H & _).
  exact (H eq_refl).
Defined.

(** ** The report writer *)

Section Writer.

Variable normalizePath : string → string.

Lemma saveToAnalysisFolder_cases
    (settings : ArchitectSettings) (filename content : string) (w : World) :
  let filePath := filePath_of normalizePath settings filename in
  let v := <[filePath := TFile content]> (ensured normalizePath settings (vault w)) in
  saveToAnalysisFolder normalizePath settings filename content w =
    match ensured normalizePath settings (vault w) !! filePath with
    | Some (TFile _) => Ok (openFile filePath (Notice ("Updated: " ++ filePath) (set_vault v w)))
    | Some TFolder => Throw (HostError "File already exists.")
    | None => Ok (openFile filePath (Notice ("Created: " ++ filePath) (set_vault v w)))
    end.
Proof.
  intros filePath v. subst v.
  unfold saveToAnalysisFolder, ensured, getAbstractFileByPath, createFolder.
  fold (filePath_of normalizePath settings filename). fold filePath.
  destruct (vault w !! folderPath_of normalizePath settings) as [x|] eqn:Hfolder;
    simpl;
    unfold modify, create;
    match goal with
    | |- context [?m !! filePath] => destruct (m !! filePath) as [[old|]|] eqn:Hfile
    end; simpl; rewrite ?Hfile; simpl; rewrite ?lookup_insert_eq; reflexivity.
Qed.

(** C8. The writer leaves the file at the computed path holding the
    new content and nothing else of it: a file that is there is
    replaced, where there is nothing a file is created; whenever the
    writer returns, that file holds exactly the new content and the
    paths other than it and the folder are as before. *)
Theorem writer_replaces_or_creates
    (settings : ArchitectSettings) (filename content : string) (w : World) :
  let folderPath := folderPath_of normalizePath settings in
  let filePath := filePath_of normalizePath settings filename in
  let save := saveToAnalysisFolder normalizePath settings filename content w in
  (∀ old, vault w !! filePath = Some (TFile old) →
     ∃ w', save = Ok w' ∧ vault w' !! filePath = Some (TFile content) ∧
           notices w' = (notices w ++ [("Updated: " ++ filePath)%string])%list) ∧
  (vault w !! filePath = None → filePath ≠ folderPath →
     ∃ w', save = Ok w' ∧ vault w' !! filePath = Some (TFile content) ∧
           notices w' = (notices w ++ [("Created: " ++ filePath)%string])%list) ∧
  (∀ w', save = Ok w' →
     vault w' = <[filePath := TFile content]> (ensured normalizePath settings (vault w)) ∧
     vault w' !! filePath = Some (TFile content) ∧
     (∀ p, p ≠ filePath → p ≠ folderPath → vault w' !! p = vault w !! p) ∧
     opened w' = (opened w ++ [filePath])%list).
Proof.
  intros folderPath filePath save. subst save.
  rewrite saveToAnalysisFolder_cases. fold filePath.
  assert (Hother : ∀ p, p ≠ folderPath → ensured normalizePath settings (vault w) !! p = vault w !! p).
  { intros p Hp. unfold ensured. fold folderPath.
    destruct (vault w !! folderPath); [reflexivity|]. by rewrite lookup_insert_ne. }
  split; [|split].
  - intros old Hold.
    assert (Hens : ensured normalizePath settings (vault w) !! filePath = Some (TFile old)).
    { unfold ensured. fold folderPath.
      destruct (vault w !! folderPath) eqn:Hfolder; [exact Hold|].
      rewrite lookup_insert_ne; [exact Hold|]. intros Heq. congruence. }
    rewrite Hens. eexists. split; [reflexivity|]. simpl.
    by rewrite lookup_insert_eq.
  - intros Hnone Hne. rewrite Hother, Hnone by done.
    eexists. split; [reflexivity|]. simpl. by rewrite lookup_insert_eq.
  - intros w' Hw'.
    assert (Hvault : vault w' = <[filePath := TFile content]> (ensured normalizePath settings (vault w))
                     ∧ opened w' = (opened w ++ [filePath])%list).
    { destruct (ensured normalizePath settings (vault w) !! filePath) as [[old|]|];
        try discriminate; by injection Hw' as <-. }
    destruct Hvault as [Hvault Hopened]. split; [exact Hvault|].
    rewrite Hvault. split; [apply lookup_insert_eq|]. split; [|exact Hopened].
    intros p Hp Hp'. rewrite lookup_insert_ne by done. by apply Hother.
Qed.

End Writer.

Lemma writer_replaces_or_creates_witness :
  ∃ w', saveToAnalysisFolder id DEFAULT_SETTINGS "ARCHITECT_ANALYTICS_DASHBOARD.md" "fresh" old_vault
        = Ok w' ∧
    vault w' !! "Data Analytics/ARCHITECT_ANALYTICS_DASHBOARD.md" = Some (TFile "fresh").
Proof.
  destruct (writer_replaces_or_creates id DEFAULT_SETTINGS
              "ARCHITECT_ANALYTICS_DASHBOARD.md" "fresh" old_vault) as (Hreplace & _ & _).
  destruct (Hreplace "stale report") as (w' & Hsave & Hfile & _).
  - unfold old_vault. simpl. by simplify_map_eq.
  - exists w'. split; [exact Hsave|exact Hfile].
Defined.

(** The host refuses to create a file where a folder is. *)
Example writer_folder_in_the_way :
  saveToAnalysisFolder id DEFAULT_SETTINGS "ARCHITECT_ANALYTICS_DASHBOARD.md" "fresh"
    {| vault := {[ "Data Analytics" := TFolder;
                   "Data Analytics/ARCHITECT_ANALYTICS_DASHBOARD.md" := TFolder ]};
       notices := []; opened := [] |}
  = Throw (HostError "File already exists.").
Proof. vm_compute. reflexivity. Qed.

(** ** Settings *)

Lemma loadSettings_union (data : option (gmap string jsval)) :
  loadSettings data = default ∅ data ∪ settings_object DEFAULT_SETTINGS.
Proof.
  unfold loadSettings, Object_assign. simpl. rewrite (right_id_L ∅ (∪)).
  destruct data; simpl; [reflexivity|]. by rewrite (left_id_L ∅ (∪)).
Qed.

Lemma read_settings_object (s : ArchitectSettings) :
  read_settings (settings_object s) = Some s.
Proof.
  destruct s as [folder [l1 l2 l3]]. vm_compute. reflexivity.
Qed.

(** C9. The loaded settings are the defaults overlaid with the stored
    record, field by field at the top level: a field the record lacks
    keeps its default, a field the record has replaces the default;
    with nothing stored the result is the default record. *)
Theorem loadSettings_merge (data : option (gmap string jsval)) :
  loadSettings data = default ∅ data ∪ settings_object DEFAULT_SETTINGS ∧
  (∀ k, default ∅ data !! k = None →
     loadSettings data !! k = settings_object DEFAULT_SETTINGS !! k) ∧
  (∀ k v, default ∅ data !! k = Some v → loadSettings data !! k = Some v) ∧
  settings_object DEFAULT_SETTINGS =
    {[ "analysisFolder" := JStr "Data Analytics";
       "schema" := JObj {[ "level1" := JStr "Signal";
                           "level2" := JStr "Pattern";
                           "level3" := JStr "Constant" ]} ]} ∧
  (data = None → read_settings (loadSettings data) = Some DEFAULT_SETTINGS).
Proof.
  rewrite loadSettings_union. split; [reflexivity|]. split; [|split; [|split]].
  - intros k Hk. by apply lookup_union_r.
  - intros k v Hk. by apply lookup_union_Some_l.
  - reflexivity.
  - intros ->. simpl. rewrite (left_id_L ∅ (∪)). apply read_settings_object.
Qed.

Lemma loadSettings_merge_witness :
  loadSettings (Some {[ "analysisFolder" := JStr "Reports" ]}) !! "analysisFolder"
    = Some (JStr "Reports") ∧
  loadSettings (Some {[ "analysisFolder" := JStr "Reports" ]}) !! "schema"
    = settings_object DEFAULT_SETTINGS !! "schema".
Proof.
  destruct (loadSettings_merge (Some {[ "analysisFolder" := JStr "Reports" ]}))
    as (_ & Habsent & Hpresent & _).
  split.
  - apply Hpresent. simpl. apply lookup_singleton_eq.
  - apply Habsent. simpl. by apply lookup_singleton_ne.
Defined.

(** The merge is shallow: a stored [schema] replaces the default one
    whole, so a level it lacks is not defaulted. *)
Example loadSettings_partial_schema :
  loadSettings (Some {[ "schema" := JObj {[ "level1" := JStr "Atom" ]} ]}) !! "schema"
    = Some (JObj {[ "level1" := JStr "Atom" ]}).
Proof.
  rewrite loadSettings_union. simpl. apply lookup_union_Some_l, lookup_singleton_eq.
Qed.


(** * Further properties *)

(** ** The local map *)








(** ** Styling of the centre *)

(** X3. With the default labels the centre of the diagram gets one of
    the three declared style classes exactly when the [type] of the
    file is not a custom one: a canonical word, empty or absent. A
    custom type is handed on as the class, which no [classDef]
    declares. *)
Theorem default_style_class
    (fm : option (gmap string jsval)) (ty : option string) (label : string) :
  frontmatter_type fm = JStr <$> ty →
  scanConnections_myType DEFAULT_SETTINGS fm = Ok label →
  toLowerCase label ∈ declared_classes ↔
  ¬ ∃ type, ty = Some type ∧ type ≠ "" ∧ toLowerCase type ∉ canonical_words.
Proof.
  intros Hty Hlabel.
  assert (Hcustom : ∀ type, toLowerCase type ∉ canonical_words →
            toLowerCase type ∉ declared_classes).
  { intros type Hout Hin. apply Hout.
    unfold declared_classes in Hin.
    unfold canonical_words, tier1_words, tier2_words, tier3_words.
    word_clash; rewrite Hin; repeat constructor. }
  assert (Hdeclared : ∀ l, l ∈ ["Signal"; "Pattern"; "Constant"] →
            toLowerCase l ∈ declared_classes).
  { intros l Hl. word_clash; subst l; vm_compute; repeat constructor. }
  destruct ty as [type|]; simpl in Hty.
  - destruct fm as [o|]; [simpl in Hty|discriminate].
    rewrite (myType_of_string _ _ _ Hty) in Hlabel. cbn [DEFAULT_SETTINGS schema level1 level2 level3] in Hlabel.
    destruct (String.eqb_spec type "") as [->|Hne].
    + injection Hlabel as <-. split; [|intros _; apply Hdeclared; repeat constructor].
      intros _ (type & [= <-] & Hne & _). done.
    + destruct (decide (toLowerCase type ∈ canonical_words)) as [Hin|Hout].
      * split; [intros _ (type' & [= <-] & _ & Hout); done|]. intros _.
        apply Hdeclared. cbv zeta in Hlabel.
        unfold canonical_words, tier1_words, tier2_words, tier3_words in Hin.
        revert Hlabel. case_words; intros [= <-]; try (repeat constructor; fail).
        exfalso. set_solver.
      * assert (label = type) as ->.
        { cbv zeta in Hlabel.
          unfold canonical_words, tier1_words, tier2_words, tier3_words in Hout.
          revert Hlabel. case_words; intros [= <-]; try reflexivity; exfalso; set_solver. }
        split; [intros Hin; by apply Hcustom in Hout|].
        intros Hnot. exfalso. apply Hnot. by exists type.
  - rewrite (myType_absent _ _ Hty) in Hlabel. injection Hlabel as <-.
    split; [|intros _; apply Hdeclared; repeat constructor].
    intros _ (type & [=] & _).
Qed.

Lemma default_style_class_witness :
  toLowerCase "Essay" ∈ declared_classes ↔
  ¬ ∃ type, Some "Essay" = Some type ∧ type ≠ "" ∧ toLowerCase type ∉ canonical_words.
Proof.
  apply (default_style_class (Some {[ "type" := JStr "Essay" ]}) (Some "Essay") "Essay").
  - vm_compute. reflexivity.
  - reflexivity.
Defined.

(** ** Growing diagrams *)

Lemma string_concat_app (l1 l2 : list string) :
  string_concat (l1 ++ l2) = string_concat l1 ++ string_concat l2.
Proof.
  induction l1 as [|x l1 IH]; [reflexivity|].
  cbn [app string_concat]. by rewrite IH, append_assoc.
Qed.

(** X4. Further links only add lines: the diagram of a longer list of
    nodes is the diagram of the shorter one followed by the
    declarations of the further nodes, numbered on from where the
    shorter list ended; without nodes the diagram is the head alone. *)
Theorem mermaid_append (label centralName : string) (nodes1 nodes2 : list Node) :
  generateMermaid {| myType := label; nodes := (nodes1 ++ nodes2)%list |} centralName
  = generateMermaid {| myType := label; nodes := nodes1 |} centralName
    ++ string_concat (imap (λ i node, edgeDecl (length nodes1 + i) (displayText node)) nodes2)
  ∧ generateMermaid {| myType := label; nodes := [] |} centralName
    = mermaidHead {| myType := label; nodes := [] |} centralName.
Proof.
  split.
  - rewrite !generateMermaid_edges. cbn [nodes]. rewrite imap_app, string_concat_app.
    rewrite append_assoc. reflexivity.
  - rewrite generateMermaid_edges. cbn [nodes imap string_concat]. apply append_nil_r.
Qed.

(** ** The tally *)

Lemma crunch_file_ok_inv (a a' : Aggregate) (file : Doc) :
  crunch_file a file = Ok a' → type_ok file.
Proof.
  unfold crunch_file, type_ok. intros Hfile fm Hfm. rewrite Hfm in Hfile.
  unfold js_or in Hfile.
  destruct (prop fm "type") as [| |b|x|s|l|o]; try done;
    destruct (truthy _) eqn:Htruthy; try done; discriminate Hfile.
Qed.

Lemma crunch_from_ok_inv (files : list Doc) (a a' : Aggregate) :
  crunch_from a files = Ok a' → Forall type_ok files.
Proof.
  revert a. induction files as [|file files IH]; intros a; simpl; [by constructor|].
  destruct (crunch_file a file) as [a1|e] eqn:Hfile; simpl; [|discriminate].
  intros Hrest. constructor; [by eapply crunch_file_ok_inv|by eapply IH].
Qed.

Lemma tally_word_tier (words : list string) (file : Doc) (fm : gmap string jsval) (t : string) :
  "" ∉ words →
  cache_frontmatter (cache file) = Some fm →
  call_toLowerCase (js_or (prop fm "type") (JStr "")) = Ok t →
  t ∈ words ↔ tier_doc words file.
Proof.
  intros Hempty Hfm Ht. split.
  - intros Hin. unfold js_or, prop in Ht.
    destruct (fm !! "type") as [v|] eqn:Hv; simpl in Ht.
    + destruct (truthy v) eqn:Htruthy.
      * destruct v; try discriminate. injection Ht as <-. by exists fm, s.
      * injection Ht as <-. done.
    + injection Ht as <-. done.
  - intros (fm' & type & Hfm' & Htype & Hin). simplify_eq.
    rewrite (crunch_type fm (Some type) Htype) in Ht. by injection Ht as <-.
Qed.

Lemma tier_doc_no_frontmatter (words : list string) (file : Doc) :
  cache_frontmatter (cache file) = None → ¬ tier_doc words file.
Proof. intros Hfm (fm & type & Hfm' & _). congruence. Qed.

Lemma tier_words_nonempty :
  ("" ∉ tier1_words) ∧ ("" ∉ tier2_words) ∧ ("" ∉ tier3_words).
Proof.
  unfold tier1_words, tier2_words, tier3_words.
  repeat split; intros H; word_clash.
Qed.

Lemma tier_words_exclusive (t : string) :
  (t ∈ tier1_words → (t ∉ tier2_words) ∧ (t ∉ tier3_words)) ∧
  (t ∈ tier2_words → t ∉ tier3_words).
Proof.
  unfold tier1_words, tier2_words, tier3_words.
  split; [intros H1; split; intros H2|intros H1 H2]; word_clash.
Qed.

(** One iteration, in terms of the file. *)
Lemma crunch_file_tallied (a a' : Aggregate) (file : Doc) :
  crunch_file a file = Ok a' →
  signals (counts a') = signals (counts a) + length (filter (tier_doc tier1_words) [file]) ∧
  patterns (counts a') = patterns (counts a) + length (filter (tier_doc tier2_words) [file]) ∧
  constants (counts a') = constants (counts a) + length (filter (tier_doc tier3_words) [file]) ∧
  patternList a' = (patternList a ++ (wikilink <$> filter (tier_doc tier2_words) [file]))%list ∧
  constantList a' = (constantList a ++ (wikilink <$> filter (tier_doc tier3_words) [file]))%list.
Proof.
  destruct tier_words_nonempty as (He1 & He2 & He3).
  unfold crunch_file.
  destruct (cache_frontmatter (cache file)) as [fm|] eqn:Hfm.
  - destruct (call_toLowerCase _) as [t|e] eqn:Ht; simpl; [|discriminate].
    intros [= <-].
    pose proof (tally_word_tier _ file fm t He1 Hfm Ht) as H1.
    pose proof (tally_word_tier _ file fm t He2 Hfm Ht) as H2.
    pose proof (tally_word_tier _ file fm t He3 Hfm Ht) as H3.
    destruct (tier_words_exclusive t) as (Hx1 & Hx2).
    rewrite !filter_cons, !filter_nil.
    unfold tier1_words, tier2_words, tier3_words in *.
    destruct (is_breakthrough (cache file) fm); case_words;
      repeat case_decide; unfold when; simpl;
      rewrite ?app_nil_r; try (repeat split; (reflexivity || lia)); exfalso; tauto.
  - intros [= <-]. rewrite !filter_cons, !filter_nil.
    rewrite !decide_False by by apply tier_doc_no_frontmatter.
    simpl. rewrite !app_nil_r. repeat split; lia.
Qed.

Lemma crunch_from_tallied (files : list Doc) (a a' : Aggregate) :
  crunch_from a files = Ok a' →
  signals (counts a') = signals (counts a) + length (filter (tier_doc tier1_words) files) ∧
  patterns (counts a') = patterns (counts a) + length (filter (tier_doc tier2_words) files) ∧
  constants (counts a') = constants (counts a) + length (filter (tier_doc tier3_words) files) ∧
  patternList a' = (patternList a ++ (wikilink <$> filter (tier_doc tier2_words) files))%list ∧
  constantList a' = (constantList a ++ (wikilink <$> filter (tier_doc tier3_words) files))%list.
Proof.
  revert a. induction files as [|file files IH]; intros a; cbn [crunch_from].
  - intros [= <-]. rewrite !filter_nil. simpl. rewrite !app_nil_r. repeat split; lia.
  - destruct (crunch_file a file) as [a1|e] eqn:Hfile; [|discriminate].
    cbn [mbind result_bind]. intros Hrest.
    destruct (crunch_file_tallied _ _ _ Hfile) as (H1 & H2 & H3 & H4 & H5).
    destruct (IH _ Hrest) as (I1 & I2 & I3 & I4 & I5).
    change (file :: files) with ([file] ++ files)%list.
    rewrite !filter_app, !fmap_app, !length_app, !app_assoc.
    rewrite I1, I2, I3, I4, I5, H1, H2, H3, H4, H5. repeat split; lia.
Qed.

Lemma aggregate_eq (a b : Aggregate) :
  signals (counts a) = signals (counts b) →
  patterns (counts a) = patterns (counts b) →
  constants (counts a) = constants (counts b) →
  breakthroughs (counts a) = breakthroughs (counts b) →
  constantList a = constantList b →
  patternList a = patternList b →
  a = b.
Proof.
  destruct a as [[] ? ?], b as [[] ? ?]. simpl. by intros -> -> -> -> -> ->.
Qed.

Lemma crunch_tallied (files : list Doc) (a : Aggregate) :
  crunch files = Ok a ↔ Forall type_ok files ∧ a = tallied files.
Proof.
  split.
  - intros Ha. split; [by eapply crunch_from_ok_inv|].
    destruct (crunch_from_tallied _ _ _ Ha) as (H1 & H2 & H3 & H4 & H5).
    destruct (crunch_from_counts _ _ _ Ha) as (_ & _ & H6).
    by apply aggregate_eq.
  - intros [Hok ->]. destruct (crunch_from_total files no_counts Hok) as (a & Ha).
    unfold crunch. rewrite Ha. f_equal.
    destruct (crunch_from_tallied _ _ _ Ha) as (H1 & H2 & H3 & H4 & H5).
    destruct (crunch_from_counts _ _ _ Ha) as (_ & _ & H6).
    by apply aggregate_eq.
Qed.

(** X5. The scan ends with counters exactly when every [type] is a
    string or falsy, and then they are: per tier, the number of files
    whose [type] lower-cases to one of its two words; the files whose
    [breakthrough] field is the boolean true; and, for the patterns and
    the constants,
    one list entry per counted file, in the order of the files, so
    that each list is as long as its counter says. *)
Theorem aggregate_tallied (files : list Doc) (a : Aggregate) :
  crunch files = Ok a ↔
  Forall type_ok files ∧
  signals (counts a) = length (filter (tier_doc tier1_words) files) ∧
  patterns (counts a) = length (filter (tier_doc tier2_words) files) ∧
  constants (counts a) = length (filter (tier_doc tier3_words) files) ∧
  breakthroughs (counts a) = length (filter flagged files) ∧
  patternList a = ((λ file, "- [[" ++ basename file ++ "]]") <$> filter (tier_doc tier2_words) files) ∧
  constantList a = ((λ file, "- [[" ++ basename file ++ "]]") <$> filter (tier_doc tier3_words) files) ∧
  length (patternList a) = patterns (counts a) ∧
  length (constantList a) = constants (counts a).
Proof.
  rewrite crunch_tallied. split.
  - intros [Hok ->]. simpl. rewrite !length_fmap. by repeat split.
  - intros (Hok & H1 & H2 & H3 & H4 & H5 & H6 & _). split; [done|].
    by apply aggregate_eq.
Qed.

Lemma aggregate_tallied_witness :
  crunch sample_vault = Ok (tallied sample_vault).
Proof.
  apply (aggregate_tallied sample_vault (tallied sample_vault)).
  split; [exact sample_vault_ok|]. simpl. rewrite !length_fmap. by repeat split.
Defined.

(** X6. The order in which the host lists the files does not matter to
    the counters: if the scan of a list ends with counters, so does the
    scan of any rearrangement of it, with the same four counters and
    with the same list entries, rearranged. *)
Theorem aggregate_order (files files' : list Doc) (a : Aggregate) :
  files ≡ₚ files' →
  crunch files = Ok a →
  ∃ a', crunch files' = Ok a' ∧ counts a' = counts a ∧
    patternList a' ≡ₚ patternList a ∧ constantList a' ≡ₚ constantList a.
Proof.
  intros Hperm Ha. apply crunch_tallied in Ha as [Hok ->].
  exists (tallied files'). split; [|split; [|split]].
  - apply crunch_tallied. split; [by rewrite <- Hperm|done].
  - unfold tallied. simpl. by rewrite Hperm.
  - unfold tallied. simpl. by rewrite Hperm.
  - unfold tallied. simpl. by rewrite Hperm.
Qed.

Lemma aggregate_order_witness :
  ∃ a', crunch [law_note; pattern_note] = Ok a' ∧
    counts a' = counts (tallied [pattern_note; law_note]).
Proof.
  destruct (aggregate_order [pattern_note; law_note] [law_note; pattern_note]
              (tallied [pattern_note; law_note])) as (a' & Ha' & Hcounts & _).
  - apply perm_swap.
  - reflexivity.
  - exists a'. split; [exact Ha'|exact Hcounts].
Defined.

(** X7. Scanning two lists one after the other is scanning each and
    adding up: the scan of the joined list ends with counters exactly
    when both scans do, each counter is the sum of the two, and each
    list is the first one followed by the second. *)
Theorem aggregate_app (files1 files2 : list Doc) (a : Aggregate) :
  crunch (files1 ++ files2) = Ok a ↔
  ∃ a1 a2, crunch files1 = Ok a1 ∧ crunch files2 = Ok a2 ∧
    signals (counts a) = signals (counts a1) + signals (counts a2) ∧
    patterns (counts a) = patterns (counts a1) + patterns (counts a2) ∧
    constants (counts a) = constants (counts a1) + constants (counts a2) ∧
    breakthroughs (counts a) = breakthroughs (counts a1) + breakthroughs (counts a2) ∧
    patternList a = (patternList a1 ++ patternList a2)%list ∧
    constantList a = (constantList a1 ++ constantList a2)%list.
Proof.
  rewrite crunch_tallied, Forall_app. split.
  - intros [[Hok1 Hok2] ->]. exists (tallied files1), (tallied files2).
    split; [by apply crunch_tallied|]. split; [by apply crunch_tallied|].
    unfold tallied. simpl. rewrite !filter_app, !fmap_app, !length_app. by repeat split.
  - intros (a1 & a2 & Ha1 & Ha2 & H1 & H2 & H3 & H4 & H5 & H6).
    apply crunch_tallied in Ha1 as [Hok1 ->]. apply crunch_tallied in Ha2 as [Hok2 ->].
    split; [done|]. apply aggregate_eq; simpl in *;
      rewrite ?filter_app, ?fmap_app, ?length_app; done.
Qed.

(** X8. Files without frontmatter, or without cache, are as good as
    absent: leaving them out of the list changes nothing, neither the
    counters and lists the scan ends with nor whether it raises. *)
Theorem aggregate_skips (files : list Doc) :
  crunch (filter has_frontmatter files) = crunch files.
Proof.
  unfold crunch. generalize no_counts.
  induction files as [|file files IH]; intros a; [reflexivity|].
  rewrite filter_cons. cbn [crunch_from].
  destruct (decide (has_frontmatter file)) as [Hfm|Hfm].
  - cbn [crunch_from]. destruct (crunch_file a file); [apply IH|reflexivity].
  - rewrite crunch_file_skip; [apply IH|].
    destruct (cache_frontmatter (cache file)) eqn:E; [|done].
    exfalso. apply Hfm. unfold has_frontmatter. rewrite E. eauto.
Qed.

(** ** The listings and the insights of the report *)





Lemma not_noisy_without_signals (c : Counts) : signals c = 0 → noisy c = false.
Proof.
  intros Hs. unfold noisy, ratio. rewrite Hs.
  change (Number 0) with (S754_zero false).
  by destruct (Number (nat_or (patterns c) 1)).
Qed.

(** X10. Without signals the report never warns of noise, however many
    patterns there are: it gives the tip when there is no constant and
    more than five patterns, and the success message otherwise. *)
Theorem no_signals_no_warning (c : Counts) :
  signals c = 0 →
  (∀ r, insights c ≠ highSignalNoise r) ∧
  (ready c → insights c = readyForBreakthrough) ∧
  (¬ ready c → insights c = healthyArchitecture).
Proof.
  intros Hs. rewrite insights_cases, (not_noisy_without_signals c Hs).
  split; [|split].
  - intros r. destruct (insight_texts_distinct r) as (H1 & H2 & _).
    case_decide; congruence.
  - intros Hr. by rewrite decide_True.
  - intros Hr. by rewrite decide_False.
Qed.

Lemma no_signals_no_warning_witness :
  insights (mkCounts 0 1000 0 0) = readyForBreakthrough.
Proof.
  destruct (no_signals_no_warning (mkCounts 0 1000 0 0) eq_refl) as (_ & H & _).
  apply H. unfold ready. simpl. lia.
Defined.





(** ** Reading the counters back from the report *)

Lemma all_digits_pretty_N_go (x : N) (s : string) :
  all_digits s = true → all_digits (pretty_N_go x s) = true.
Proof.
  revert s. induction (N.lt_wf_0 x) as [x _ IH]; intros s Hs.
  destruct (decide (x = 0)%N) as [->|Hx]; [by rewrite pretty_N_go_0|].
  rewrite pretty_N_go_step by lia. apply IH; [apply N.div_lt; lia|].
  cbn [all_digits]. rewrite Hs, andb_true_r.
  unfold pretty_N_char. by repeat case_match.
Qed.

Lemma all_digits_pretty (n : nat) : all_digits (pretty n) = true.
Proof.
  unfold pretty, pretty_nat, pretty, pretty_N.
  case_decide; [reflexivity|]. by apply all_digits_pretty_N_go.
Qed.

(** A numeral ends where the first character that is no digit stands. *)
Lemma digits_then (d1 d2 r1 r2 : string) (c : ascii) :
  all_digits d1 = true → all_digits d2 = true → is_digit c = false →
  d1 ++ String c r1 = d2 ++ String c r2 → d1 = d2 ∧ r1 = r2.
Proof.
  intros H1 H2 Hc. revert d2 H2.
  induction d1 as [|a d1 IH]; intros [|b d2] H2 Heq; cbn [append all_digits] in *.
  - by injection Heq as ->.
  - injection Heq as -> _. apply andb_true_iff in H2 as [H2 _]. congruence.
  - injection Heq as -> _. apply andb_true_iff in H1 as [H1 _]. congruence.
  - injection Heq as -> Heq.
    apply andb_true_iff in H1 as [_ H1]. apply andb_true_iff in H2 as [_ H2].
    destruct (IH H1 d2 H2 Heq) as [-> ->]. done.
Qed.

Lemma pretty_then (n1 n2 : nat) (r1 r2 : string) (c : ascii) :
  is_digit c = false →
  pretty n1 ++ String c r1 = pretty n2 ++ String c r2 → n1 = n2 ∧ r1 = r2.
Proof.
  intros Hc Heq.
  apply digits_then in Heq as [Heq ->]; auto using all_digits_pretty.
  by apply pretty_nat_inj in Heq.
Qed.

Ltac peel H :=
  repeat first
    [ apply String.app_inj in H
    | progress (injection H as H) ].

(** X12. The report tells the counters: two reports with the same
    timestamp that are the same text come from the same four counters.
    Each counter can be read back as the numeral that follows its fixed
    piece of the template. *)
Theorem report_counters_readable (now : string) (a1 a2 : Aggregate) :
  dashboardContent now a1 = dashboardContent now a2 → counts a1 = counts a2.
Proof.
  unfold dashboardContent, dashboardHead. cbn [unlines].
  rewrite !append_assoc. unfold nl, dq. intros H. simpl in H. peel H.
  apply pretty_then in H as [Hs H]; [|reflexivity]. peel H.
  apply pretty_then in H as [Hp H]; [|reflexivity]. peel H.
  apply pretty_then in H as [Hc H]; [|reflexivity]. peel H.
  apply pretty_then in H as [Hb H]; [|reflexivity].
  destruct a1 as [[] ? ?], a2 as [[] ? ?]. simpl in *. congruence.
Qed.

Lemma report_counters_readable_witness :
  counts (tallied [law_note]) = counts (tallied [law_note]).
Proof.
  apply (report_counters_readable "11/2/2026, 9:00:00 AM"
           (tallied [law_note]) (tallied [law_note])).
  reflexivity.
Defined.

(** ** Writing again *)

Section WritingAgain.

Variable normalizePath : string → string.

Lemma ensured_folder (settings : ArchitectSettings) (v : gmap string TAbstractFile) :
  is_Some (ensured normalizePath settings v !! folderPath_of normalizePath settings).
Proof.
  unfold ensured.
  destruct (v !! folderPath_of normalizePath settings) eqn:Hfolder; [by rewrite Hfolder|].
  rewrite lookup_insert_eq. eauto.
Qed.

Lemma ensured_fixed (settings : ArchitectSettings) (v : gmap string TAbstractFile) :
  is_Some (v !! folderPath_of normalizePath settings) →
  ensured normalizePath settings v = v.
Proof. unfold ensured. by intros [x ->]. Qed.

Lemma saved_vault (settings : ArchitectSettings) (filename content : string) (w w1 : World) :
  saveToAnalysisFolder normalizePath settings filename content w = Ok w1 →
  vault w1 = <[filePath_of normalizePath settings filename := TFile content]>
               (ensured normalizePath settings (vault w)) ∧
  ensured normalizePath settings (vault w) !! filePath_of normalizePath settings filename
    ≠ Some TFolder.
Proof.
  rewrite saveToAnalysisFolder_cases.
  destruct (ensured normalizePath settings (vault w) !! _) as [[old|]|];
    try discriminate; by intros [= <-].
Qed.

(** The second of two calls of the writer. *)
Lemma saved_again
    (settings : ArchitectSettings) (filename content1 content2 : string) (w w1 : World) :
  let filePath := filePath_of normalizePath settings filename in
  saveToAnalysisFolder normalizePath settings filename content1 w = Ok w1 →
  ∃ w2 w2',
    saveToAnalysisFolder normalizePath settings filename content2 w1 = Ok w2 ∧
    saveToAnalysisFolder normalizePath settings filename content2 w = Ok w2' ∧
    vault w2 = vault w2' ∧
    vault w2 !! filePath = Some (TFile content2) ∧
    notices w2 = (notices w1 ++ [("Updated: " ++ filePath)%string])%list ∧
    (content1 = content2 → vault w2 = vault w1).
Proof.
  intros filePath Hfirst.
  destruct (saved_vault _ _ _ _ _ Hfirst) as [Hv1 Hfree]. fold filePath in Hv1, Hfree.
  assert (Hens : ensured normalizePath settings (vault w1) = vault w1).
  { apply ensured_fixed. rewrite Hv1.
    destruct (decide (filePath = folderPath_of normalizePath settings)) as [<-|Hne].
    - rewrite lookup_insert_eq. eauto.
    - rewrite lookup_insert_ne by done. apply ensured_folder. }
  rewrite !saveToAnalysisFolder_cases. fold filePath. rewrite Hens.
  assert (Hfile : vault w1 !! filePath = Some (TFile content1))
    by (rewrite Hv1; apply lookup_insert_eq).
  rewrite Hfile.
  assert (Hboth : <[filePath := TFile content2]> (vault w1)
                  = <[filePath := TFile content2]> (ensured normalizePath settings (vault w)))
    by (rewrite Hv1; apply insert_insert_eq).
  destruct (ensured normalizePath settings (vault w) !! filePath) as [[old|]|]; [|done|];
    (do 2 eexists; split; [reflexivity|]; split; [reflexivity|]; simpl;
     split; [exact Hboth|]; split; [apply lookup_insert_eq|]; split; [reflexivity|];
     intros <-; by apply insert_id).
Qed.

(** X13. Once the writer has returned, writing again to the same place
    cannot fail: it replaces the file through the update branch, and
    the vault is the one a single call with the later content would
    have left; writing the same content again changes no path. *)
Theorem writer_twice
    (settings : ArchitectSettings) (filename content1 content2 : string) (w w1 : World) :
  let filePath := filePath_of normalizePath settings filename in
  saveToAnalysisFolder normalizePath settings filename content1 w = Ok w1 →
  ∃ w2 w2',
    saveToAnalysisFolder normalizePath settings filename content2 w1 = Ok w2 ∧
    saveToAnalysisFolder normalizePath settings filename content2 w = Ok w2' ∧
    vault w2 = vault w2' ∧
    vault w2 !! filePath = Some (TFile content2) ∧
    notices w2 = (notices w1 ++ [("Updated: " ++ filePath)%string])%list ∧
    (content1 = content2 → vault w2 = vault w1).
Proof. apply saved_again. Qed.

End WritingAgain.

Lemma writer_twice_witness :
  ∃ w1 w2,
    saveToAnalysisFolder id DEFAULT_SETTINGS "ARCHITECT_ANALYTICS_DASHBOARD.md" "first" old_vault
      = Ok w1 ∧
    saveToAnalysisFolder id DEFAULT_SETTINGS "ARCHITECT_ANALYTICS_DASHBOARD.md" "second" w1
      = Ok w2 ∧
    vault w2 !! "Data Analytics/ARCHITECT_ANALYTICS_DASHBOARD.md" = Some (TFile "second").
Proof.
  destruct (saveToAnalysisFolder id DEFAULT_SETTINGS "ARCHITECT_ANALYTICS_DASHBOARD.md"
              "first" old_vault) as [w1|e] eqn:Hw1; [|vm_compute in Hw1; discriminate Hw1].
  destruct (writer_twice id DEFAULT_SETTINGS "ARCHITECT_ANALYTICS_DASHBOARD.md"
              "first" "second" old_vault w1 Hw1) as (w2 & w2' & Hw2 & _ & _ & Hfile & _).
  exists w1, w2. split; [reflexivity|]. split; [exact Hw2|exact Hfile].
Defined.


(** ** The dashboard command *)

Lemma crunch_file_plain (a : Aggregate) (d : Doc) (fm : gmap string jsval) :
  cache_frontmatter (cache d) = Some fm →
  fm !! "type" = None → fm !! "breakthrough" = None →
  crunch_file a d = Ok a.
Proof.
  intros Hfm Htype Hflag. unfold crunch_file, is_breakthrough. rewrite Hfm.
  rewrite tags_include_never, (prop_absent _ _ Htype), (prop_absent _ _ Hflag).
  reflexivity.
Qed.

Lemma crunch_from_plain (files1 files2 : list Doc) (d : Doc) (fm : gmap string jsval)
    (a : Aggregate) :
  cache_frontmatter (cache d) = Some fm →
  fm !! "type" = None → fm !! "breakthrough" = None →
  crunch_from a (files1 ++ d :: files2) = crunch_from a (files1 ++ files2).
Proof.
  intros Hfm Htype Hflag. revert a.
  induction files1 as [|file files1 IH]; intros a; cbn [app crunch_from].
  - by rewrite (crunch_file_plain a d fm).
  - destruct (crunch_file a file); [apply IH|reflexivity].
Qed.

Section DashboardCommand.

Variable normalizePath : string → string.

Lemma saveToAnalysisFolder_run_cases
    (settings : ArchitectSettings) (filename content : string) (w : World) :
  let filePath := filePath_of normalizePath settings filename in
  let v := <[filePath := TFile content]> (ensured normalizePath settings (vault w)) in
  saveToAnalysisFolder_run normalizePath settings filename content w =
    match ensured normalizePath settings (vault w) !! filePath with
    | Some (TFile _) =>
        (openFile filePath (Notice ("Updated: " ++ filePath) (set_vault v w)), None)
    | Some TFolder =>
        (set_vault (ensured normalizePath settings (vault w)) w,
         Some (HostError "File already exists."))
    | None =>
        (openFile filePath (Notice ("Created: " ++ filePath) (set_vault v w)), None)
    end.
Proof.
  intros filePath v. subst v.
  unfold saveToAnalysisFolder_run, ensured, getAbstractFileByPath, createFolder.
  fold (filePath_of normalizePath settings filename). fold filePath.
  destruct (vault w !! folderPath_of normalizePath settings) as [x|] eqn:Hfolder;
    cbn [vault set_vault];
    unfold modify, create;
    match goal with
    | |- context [?m !! filePath] => destruct (m !! filePath) as [[old|]|] eqn:Hfile
    end; cbn [mbind result_bind vault set_vault Notice];
    rewrite ?Hfile; cbn [mbind result_bind vault set_vault Notice];
    rewrite ?lookup_insert_eq; try reflexivity.
  all: destruct w; reflexivity.
Qed.

(** The two renderings of the writer agree. *)
Lemma saveToAnalysisFolder_run_ok
    (settings : ArchitectSettings) (filename content : string) (w w' : World) :
  saveToAnalysisFolder normalizePath settings filename content w = Ok w' ↔
  saveToAnalysisFolder_run normalizePath settings filename content w = (w', None).
Proof.
  rewrite saveToAnalysisFolder_cases, saveToAnalysisFolder_run_cases.
  destruct (ensured normalizePath settings (vault w) !! _) as [[old|]|];
    split; intros H; try discriminate; by injection H as <-.
Qed.

Lemma ensured_after_save
    (settings : ArchitectSettings) (filename content : string) (v : gmap string TAbstractFile) :
  let filePath := filePath_of normalizePath settings filename in
  ensured normalizePath settings
    (<[filePath := TFile content]> (ensured normalizePath settings v))
  = <[filePath := TFile content]> (ensured normalizePath settings v).
Proof.
  intros filePath. apply ensured_fixed.
  destruct (decide (filePath = folderPath_of normalizePath settings)) as [<-|Hne].
  - rewrite lookup_insert_eq. eauto.
  - rewrite lookup_insert_ne by done. apply ensured_folder.
Qed.

(** X14. The dashboard command. When the scan raises, the command
    raises and leaves the world as it was but for the notice that the
    scan started: no path of the vault is written and no file opened.
    When a folder sits where the report goes, the command raises with
    at most the analysis folder created. Otherwise it returns, the file
    [ARCHITECT_ANALYTICS_DASHBOARD.md] of the analysis folder holds the
    report of the counters and of the time of the call, and every path
    but that file and the folder is as before. A later run, over
    whatever files the host then lists, either raises in its scan and
    leaves the earlier report, or returns with the report of its own
    counters and time in that file and every other path untouched. A
    note whose frontmatter has neither [type] nor [breakthrough], as
    the written dashboard has, changes nothing in a scan wherever it is
    listed. *)
Theorem dashboard_command
    (settings : ArchitectSettings) (files files' : list Doc) (now now' : string) (w : World) :
  let folderPath := folderPath_of normalizePath settings in
  let filePath := filePath_of normalizePath settings "ARCHITECT_ANALYTICS_DASHBOARD.md" in
  let scanning := Notice "Architect: Scanning entire vault..." in
  (∀ e, crunch files = Throw e →
     generateGlobalDashboard normalizePath settings files now w = (scanning w, Some e)) ∧
  (∀ a, crunch files = Ok a →
     ensured normalizePath settings (vault w) !! filePath = Some TFolder →
     generateGlobalDashboard normalizePath settings files now w
       = (set_vault (ensured normalizePath settings (vault w)) (scanning w),
          Some (HostError "File already exists."))) ∧
  (∀ a, crunch files = Ok a →
     ensured normalizePath settings (vault w) !! filePath ≠ Some TFolder →
     ∃ w1,
       generateGlobalDashboard normalizePath settings files now w = (w1, None) ∧
       vault w1 !! filePath = Some (TFile (dashboardContent now a)) ∧
       (∀ p, p ≠ filePath → p ≠ folderPath → vault w1 !! p = vault w !! p) ∧
       (∀ e, crunch files' = Throw e →
          generateGlobalDashboard normalizePath settings files' now' w1 = (scanning w1, Some e)) ∧
       (∀ a', crunch files' = Ok a' →
          ∃ w2,
            generateGlobalDashboard normalizePath settings files' now' w1 = (w2, None) ∧
            vault w2 !! filePath = Some (TFile (dashboardContent now' a')) ∧
            (∀ p, p ≠ filePath → vault w2 !! p = vault w1 !! p))) ∧
  (∀ d files1 files2 fm,
     cache_frontmatter (cache d) = Some fm →
     fm !! "type" = None → fm !! "breakthrough" = None →
     crunch (files1 ++ d :: files2) = crunch (files1 ++ files2)).
Proof.
  intros folderPath filePath scanning. split; [|split; [|split]].
  - intros e He. unfold generateGlobalDashboard. by rewrite He.
  - intros a Ha Hfolder. unfold generateGlobalDashboard. rewrite Ha.
    rewrite saveToAnalysisFolder_run_cases. fold filePath. cbn [vault Notice].
    by rewrite Hfolder.
  - intros a Ha Hfree. unfold generateGlobalDashboard at 1. rewrite Ha.
    rewrite saveToAnalysisFolder_run_cases. fold filePath. cbn [vault Notice].
    set (v1 := <[filePath := TFile (dashboardContent now a)]>
                 (ensured normalizePath settings (vault w))).
    assert (Hw1 : ∃ w1,
              match ensured normalizePath settings (vault w) !! filePath with
              | Some (TFile _) =>
                  (openFile filePath (Notice ("Updated: " ++ filePath)
                     (set_vault v1 (Notice "Architect: Scanning entire vault..." w))), None)
              | Some TFolder =>
                  (set_vault (ensured normalizePath settings (vault w))
                     (Notice "Architect: Scanning entire vault..." w),
                   Some (HostError "File already exists."))
              | None =>
                  (openFile filePath (Notice ("Created: " ++ filePath)
                     (set_vault v1 (Notice "Architect: Scanning entire vault..." w))), None)
              end = (w1, None) ∧ vault w1 = v1).
    { destruct (ensured normalizePath settings (vault w) !! filePath) as [[old|]|];
        [|done|]; eexists; (split; [reflexivity|reflexivity]). }
    destruct Hw1 as (w1 & -> & Hv1). exists w1. split; [reflexivity|].
    split; [rewrite Hv1; apply lookup_insert_eq|]. split; [|split].
    + intros p Hp Hp'. rewrite Hv1. unfold v1. rewrite lookup_insert_ne by done.
      unfold ensured. fold folderPath.
      destruct (vault w !! folderPath); [reflexivity|]. by rewrite lookup_insert_ne.
    + intros e He. unfold generateGlobalDashboard. by rewrite He.
    + intros a' Ha'. unfold generateGlobalDashboard. rewrite Ha'.
      rewrite saveToAnalysisFolder_run_cases. fold filePath. cbn [vault Notice].
      rewrite Hv1. unfold v1, filePath. rewrite ensured_after_save.
      rewrite lookup_insert_eq. eexists. split; [reflexivity|]. cbn [vault openFile Notice set_vault].
      split; [apply lookup_insert_eq|].
      intros p Hp. by rewrite lookup_insert_ne.
  - intros d files1 files2 fm Hfm Htype Hflag. by apply (crunch_from_plain _ _ d fm).
Qed.

End DashboardCommand.

Lemma dashboard_command_witness :
  ∃ w1, generateGlobalDashboard id DEFAULT_SETTINGS sample_vault "11/2/2026, 9:00:00 AM" old_vault
        = (w1, None) ∧
    vault w1 !! "Data Analytics/ARCHITECT_ANALYTICS_DASHBOARD.md"
      = Some (TFile (dashboardContent "11/2/2026, 9:00:00 AM" (tallied sample_vault))).
Proof.
  destruct (dashboard_command id DEFAULT_SETTINGS sample_vault sample_vault
              "11/2/2026, 9:00:00 AM" "11/2/2026, 9:05:00 AM" old_vault) as (_ & _ & Hruns & _).
  destruct (Hruns (tallied sample_vault)) as (w1 & Hw1 & Hfile & _).
  - apply crunch_tallied. split; [exact sample_vault_ok|reflexivity].
  - unfold ensured, old_vault. cbn [vault]. by simplify_map_eq.
  - exists w1. split; [exact Hw1|exact Hfile].
Defined.

(** A raise of the scan leaves the vault alone. *)
Example dashboard_command_raise :
  generateGlobalDashboard id DEFAULT_SETTINGS
    [pattern_note;
     {| basename := "Odd";
        cache := Some {| links := None; frontmatter := Some {[ "type" := JNum (Number 5) ]};
                         tags := None |} |}]
    "11/2/2026, 9:00:00 AM" old_vault
  = ({| vault := vault old_vault; notices := ["Architect: Scanning entire vault..."];
        opened := [] |}, Some TypeError).
Proof. reflexivity. Qed.

(** ** Saving and loading the settings *)

Lemma loadSettings_stored (o : gmap string jsval) :
  is_Some (o !! "analysisFolder") → is_Some (o !! "schema") →
  loadSettings (Some o) = o.
Proof.
  intros [x Hx] [y Hy]. rewrite loadSettings_union. cbn [default].
  apply map_eq. intros k.
  destruct (o !! k) as [v|] eqn:Hk; [by apply lookup_union_Some_l|].
  rewrite lookup_union_r by done. unfold settings_object.
  destruct (decide (k = "analysisFolder")) as [->|Hk1]; [congruence|].
  destruct (decide (k = "schema")) as [->|Hk2]; [congruence|].
  by rewrite lookup_insert_ne, lookup_singleton_ne.
Qed.

Lemma settings_object_keys (s : ArchitectSettings) :
  is_Some (settings_object s !! "analysisFolder") ∧ is_Some (settings_object s !! "schema").
Proof.
  unfold settings_object. split.
  - rewrite lookup_insert_eq. eauto.
  - rewrite lookup_insert_ne, lookup_singleton_eq by done. eauto.
Qed.

Lemma loadSettings_keys (data : option (gmap string jsval)) :
  is_Some (loadSettings data !! "analysisFolder") ∧ is_Some (loadSettings data !! "schema").
Proof.
  rewrite loadSettings_union.
  split; apply lookup_union_is_Some; right; apply settings_object_keys.
Qed.

Lemma saved_reloads (st : PluginState) :
  onload_settings (plugin_data (saveSettings st)) = Some (plugin_settings (saveSettings st)).
Proof.
  unfold onload_settings, saveSettings. cbn [plugin_data plugin_settings].
  rewrite loadSettings_stored by apply settings_object_keys.
  apply read_settings_object.
Qed.

(** X15. Loading gives back what was saved: a stored record that has
    both top-level fields is loaded as it is, defaults playing no part,
    so the settings the plugin saves are the settings it starts with
    the next time; and loading what was loaded changes nothing. *)
Theorem settings_round_trip (st : PluginState) (o : gmap string jsval) :
  (is_Some (o !! "analysisFolder") → is_Some (o !! "schema") → loadSettings (Some o) = o) ∧
  onload_settings (plugin_data (saveSettings st)) = Some (plugin_settings st) ∧
  loadSettings (Some (loadSettings (plugin_data st))) = loadSettings (plugin_data st).
Proof.
  split; [apply loadSettings_stored|]. split; [apply saved_reloads|].
  apply loadSettings_stored; apply loadSettings_keys.
Qed.

Lemma settings_round_trip_witness :
  loadSettings (Some {[ "analysisFolder" := JStr "Reports"; "schema" := JNull ]})
  = {[ "analysisFolder" := JStr "Reports"; "schema" := JNull ]}.
Proof.
  destruct (settings_round_trip {| plugin_settings := DEFAULT_SETTINGS; plugin_data := None |}
              {[ "analysisFolder" := JStr "Reports"; "schema" := JNull ]}) as (H & _).
  apply H.
  - rewrite lookup_insert_eq. eauto.
  - rewrite lookup_insert_ne, lookup_singleton_eq by done. eauto.
Defined.

(** X16. The handlers of the settings tab keep what is stored in step
    with what is in memory: after any of them, a restart would load the
    settings that are in memory. Each writes its own field and leaves
    the three others as they were; and after a restart the classifier
    names a file by the edited label: a renamed level 1 is what notes
    without [type] are called. *)
Theorem settings_handlers (value : string) (st : PluginState) :
  let s := plugin_settings st in
  Forall (λ h : PluginState → PluginState,
            onload_settings (plugin_data (h st)) = Some (plugin_settings (h st)))
    [onChange_analysisFolder value; onChange_level1 value;
     onChange_level2 value; onChange_level3 value] ∧
  (let s' := plugin_settings (onChange_analysisFolder value st) in
   analysisFolder s' = value ∧ level1 (schema s') = level1 (schema s) ∧
   level2 (schema s') = level2 (schema s) ∧ level3 (schema s') = level3 (schema s)) ∧
  (let s' := plugin_settings (onChange_level1 value st) in
   analysisFolder s' = analysisFolder s ∧ level1 (schema s') = value ∧
   level2 (schema s') = level2 (schema s) ∧ level3 (schema s') = level3 (schema s)) ∧
  (let s' := plugin_settings (onChange_level2 value st) in
   analysisFolder s' = analysisFolder s ∧ level1 (schema s') = level1 (schema s) ∧
   level2 (schema s') = value ∧ level3 (schema s') = level3 (schema s)) ∧
  (let s' := plugin_settings (onChange_level3 value st) in
   analysisFolder s' = analysisFolder s ∧ level1 (schema s') = level1 (schema s) ∧
   level2 (schema s') = level2 (schema s) ∧ level3 (schema s') = value) ∧
  (∀ s', onload_settings (plugin_data (onChange_level1 value st)) = Some s' →
        scanConnections_myType s' None = Ok value) ∧
  (∀ s' fm, onload_settings (plugin_data (onChange_level2 value st)) = Some s' →
        fm !! "type" = Some (JStr "pattern") →
        scanConnections_myType s' (Some fm) = Ok value) ∧
  (∀ s' fm, onload_settings (plugin_data (onChange_level3 value st)) = Some s' →
        fm !! "type" = Some (JStr "law") →
        scanConnections_myType s' (Some fm) = Ok value).
Proof.
  intros s. split; [repeat constructor; apply saved_reloads|].
  do 4 (split; [by repeat split|]).
  split; [|split].
  - intros s' Hs. unfold onChange_level1 in Hs. rewrite saved_reloads in Hs.
    by injection Hs as <-.
  - intros s' fm Hs Hfm. unfold onChange_level2 in Hs. rewrite saved_reloads in Hs.
    injection Hs as <-. by rewrite (myType_of_string _ _ _ Hfm).
  - intros s' fm Hs Hfm. unfold onChange_level3 in Hs. rewrite saved_reloads in Hs.
    injection Hs as <-. by rewrite (myType_of_string _ _ _ Hfm).
Qed.

Lemma settings_handlers_witness :
  scanConnections_myType
    {| analysisFolder := "Data Analytics";
       schema := {| level1 := "Seed"; level2 := "Pattern"; level3 := "Constant" |} |} None
  = Ok "Seed".
Proof.
  destruct (settings_handlers "Seed" {| plugin_settings := DEFAULT_SETTINGS; plugin_data := None |})
    as (_ & _ & _ & _ & _ & H & _).
  apply (H {| analysisFolder := "Data Analytics";
              schema := {| level1 := "Seed"; level2 := "Pattern"; level3 := "Constant" |} |}).
  vm_compute. reflexivity.
Defined.

(** ** The warning, on small vaults *)

(** X17. For up to 400 signals and 40 patterns the binary64 test of the
    code is the test on the integers: the report warns of noise exactly
    when there are more than ten signals for every pattern, one pattern
    being assumed when there is none. *)
Theorem warning_threshold_small (c : Counts) :
  (signals c ≤ 400)%nat → (patterns c ≤ 40)%nat →
  insights c = highSignalNoise (ratio c) ↔ (10 * (patterns c `max` 1) < signals c)%nat.
Proof.
  intros Hs Hp. rewrite insights_cases.
  destruct c as [s p k b]. cbn [signals patterns] in *.
  change ({| signals := s; patterns := p; constants := k; breakthroughs := b |})
    with (mkCounts s p k b).
  rewrite noisy_counts, (noisy_small s p Hs Hp).
  destruct (insight_texts_distinct (ratio (mkCounts s p k b))) as (H1 & H2 & _).
  destruct (Nat.ltb_spec (10 * (p `max` 1)) s) as [Hlt|Hge].
  - split; [done|reflexivity].
  - split; [|lia]. case_decide; congruence.
Qed.

Lemma warning_threshold_small_witness :
  insights (mkCounts 21 2 0 0) = highSignalNoise (ratio (mkCounts 21 2 0 0)).
Proof.
  apply (warning_threshold_small (mkCounts 21 2 0 0)); simpl; lia.
Defined.
